(** * Rule-based article classifier (docs/plans/streetcode_classifier_rules.py)

    A shallow embedding of [classify_article] and of the pattern tables it
    scans, together with the fragment of Python's [re] module those tables
    use.  Text is modelled as [string]: the ASCII range of Python's [str],
    with the codes above 127 standing for characters that are neither
    letters, digits nor white space.  Confidence weights are two-digit
    decimal constants that the program only compares, maximises, minimises
    and assigns, so they are modelled exactly as rationals ([Qmax] and [Qmin]
    return their first argument on ties, as Python's [max] and [min] do). *)

From Stdlib Require Import Bool Arith Lia List String Ascii.
From Stdlib Require Import QArith Qminmax.
From Stdlib Require Import Permutation.
Import ListNotations.

Close Scope Q_scope.
Open Scope string_scope.
Open Scope list_scope.
Open Scope nat_scope.

(** ** The fragment of Python's [re] used by the rule tables *)

Module Re.

(** Members of a bracket class; [\w] and [\d] are one-item classes. *)
Inductive citem : Type :=
| IChar (c : ascii)
| IWord
| IDigit.

Inductive regex : Type :=
| Eps
| Chr (c : ascii)                 (* a literal, compared ignoring case *)
| Any                             (* [.]: anything but a newline *)
| Cls (items : list citem)        (* [[...]], [\w], [\d] *)
| Bol                             (* [^] *)
| Eol                             (* [$] *)
| WordB                           (* [\b] *)
| Seq (a b : regex)
| Alt (a b : regex)
| Star (a : regex)
| NegAhead (a : regex)            (* [(?!...)] *)
| NegBehind (w : nat) (a : regex) (* [(?<!...)], of fixed width [w] *).

(** *** Characters *)

Definition code (c : ascii) : nat := nat_of_ascii c.

Definition is_upper (c : ascii) : bool := (65 <=? code c) && (code c <=? 90).
Definition is_lower (c : ascii) : bool := (97 <=? code c) && (code c <=? 122).
Definition is_digit (c : ascii) : bool := (48 <=? code c) && (code c <=? 57).

(** [str.lower] on one character. *)
Definition lower_ascii (c : ascii) : ascii :=
  if is_upper c then ascii_of_nat (code c + 32) else c.

(** [\w]: letters, digits and the underscore. *)
Definition is_word (c : ascii) : bool :=
  is_upper c || is_lower c || is_digit c || (code c =? 95).

(** [str.isspace] on one character. *)
Definition is_space (c : ascii) : bool :=
  ((9 <=? code c) && (code c <=? 13)) || ((28 <=? code c) && (code c <=? 32)).

Definition newline : ascii := ascii_of_nat 10.

Definition ci_eqb (a b : ascii) : bool :=
  Ascii.eqb (lower_ascii a) (lower_ascii b).

Definition in_item (x : ascii) (i : citem) : bool :=
  match i with
  | IChar c => ci_eqb c x
  | IWord => is_word x
  | IDigit => is_digit x
  end.

(** *** Matching

    A position in the subject: the characters before it (nearest first) and
    the characters from it on. *)
Record pos : Type := mkPos { before : list ascii; after : list ascii }.

Definition remaining (p : pos) : nat := List.length (after p).

Definition step (x : ascii) (xs : list ascii) (p : pos) : pos :=
  mkPos (x :: before p) xs.

(** Moves [w] characters back, when there are that many. *)
Fixpoint back (w : nat) (p : pos) : option pos :=
  match w with
  | O => Some p
  | S w' =>
      match before p with
      | [] => None
      | x :: bs => back w' (mkPos bs (x :: after p))
      end
  end.

Definition word_at (l : list ascii) : bool :=
  match l with
  | [] => false
  | x :: _ => is_word x
  end.

Definition at_end (l : list ascii) : bool :=
  match l with
  | [] => true
  | [x] => Ascii.eqb x newline
  | _ => false
  end.

Definition is_nil (l : list ascii) : bool :=
  match l with [] => true | _ => false end.

Definition yes (_ : pos) : bool := true.

(** The loop of a star over the matcher [ma] of its body: stop here, or run
    the body once more, provided it consumed something. *)
Fixpoint star_loop (ma : (pos -> bool) -> pos -> bool) (k : pos -> bool)
  (fuel : nat) (p : pos) {struct fuel} : bool :=
  if k p then true
  else
    match fuel with
    | O => false
    | S fuel' =>
        ma (fun q =>
              if remaining q <? remaining p then star_loop ma k fuel' q
              else false) p
    end.

(** Backtracking matcher in continuation-passing style: [m r k p] holds when
    [r] matches from [p] up to a position that [k] accepts.  Tests are
    written with [if] so that a failed test stops the evaluation of its
    branch. *)
Fixpoint m (r : regex) (k : pos -> bool) (p : pos) {struct r} : bool :=
  match r with
  | Eps => k p
  | Chr c =>
      match after p with
      | x :: xs => if ci_eqb c x then k (step x xs p) else false
      | [] => false
      end
  | Any =>
      match after p with
      | x :: xs => if Ascii.eqb x newline then false else k (step x xs p)
      | [] => false
      end
  | Cls items =>
      match after p with
      | x :: xs => if existsb (in_item x) items then k (step x xs p) else false
      | [] => false
      end
  | Bol => if is_nil (before p) then k p else false
  | Eol => if at_end (after p) then k p else false
  | WordB =>
      if xorb (word_at (before p)) (word_at (after p)) then k p else false
  | Seq a b => m a (m b k) p
  | Alt a b => if m a k p then true else m b k p
  | Star a => star_loop (m a) k (remaining p) p
  | NegAhead a => if m a yes p then false else k p
  | NegBehind w a =>
      match back w p with
      | Some q =>
          if m a (fun e => remaining e =? remaining p) q then false else k p
      | None => k p
      end
  end.

(** [re.search]: a match starting at some position of the subject. *)
Fixpoint search_from (r : regex) (bs xs : list ascii) : bool :=
  if m r yes (mkPos bs xs) then true
  else
    match xs with
    | [] => false
    | x :: xs' => search_from r (x :: bs) xs'
    end.

Definition search (r : regex) (text : list ascii) : bool :=
  search_from r [] text.

(** *** Parsing pattern text *)

(** The width of a pattern every match of which has the same length; Python
    refuses a look-behind without one. *)
Fixpoint width (r : regex) : option nat :=
  match r with
  | Eps | Bol | Eol | WordB | NegAhead _ | NegBehind _ _ => Some 0
  | Chr _ | Any | Cls _ => Some 1
  | Seq a b =>
      match width a, width b with
      | Some x, Some y => Some (x + y)
      | _, _ => None
      end
  | Alt a b =>
      match width a, width b with
      | Some x, Some y => if x =? y then Some x else None
      | _, _ => None
      end
  | Star _ => None
  end.

Fixpoint repeat_re (n : nat) (a : regex) : regex :=
  match n with
  | O => Eps
  | S n' => Seq a (repeat_re n' a)
  end.

Definition digit_val (c : ascii) : nat := code c - 48.

(** Reads the decimal count of [{n}] up to the closing brace. *)
Fixpoint parse_count (acc : nat) (seen : bool) (s : list ascii)
  : option (nat * list ascii) :=
  match s with
  | [] => None
  | c :: s' =>
      if Ascii.eqb c "}" then (if seen then Some (acc, s') else None)
      else if is_digit c then parse_count (10 * acc + digit_val c) true s'
      else None
  end.

(** A suffix operator after an atom. *)
Definition parse_quant (a : regex) (s : list ascii) : option (regex * list ascii) :=
  match s with
  | "*"%char :: s' => Some (Star a, s')
  | "+"%char :: s' => Some (Seq a (Star a), s')
  | "?"%char :: s' => Some (Alt a Eps, s')
  | "{"%char :: s' =>
      match parse_count 0 false s' with
      | Some (n, s'') => Some (repeat_re n a, s'')
      | None => None
      end
  | _ => Some (a, s)
  end.

(** A backslash escape: a class, an assertion or a quoted punctuation sign. *)
Definition parse_escape (c : ascii) : option regex :=
  if Ascii.eqb c "w" then Some (Cls [IWord])
  else if Ascii.eqb c "d" then Some (Cls [IDigit])
  else if Ascii.eqb c "b" then Some WordB
  else if is_word c then None
  else Some (Chr c).

(** The items of a bracket class up to the closing bracket. *)
Fixpoint parse_class (s : list ascii) : option (list citem * list ascii) :=
  match s with
  | [] => None
  | c :: s' =>
      if Ascii.eqb c "]" then Some ([], s')
      else if Ascii.eqb c "^" then None
      else if Ascii.eqb c "-" then None
      else if Ascii.eqb c "\" then
        match s' with
        | e :: s'' =>
            let item :=
              if Ascii.eqb e "w" then Some IWord
              else if Ascii.eqb e "d" then Some IDigit
              else if is_word e then None
              else Some (IChar e) in
            match item, parse_class s'' with
            | Some i, Some (its, rest) => Some (i :: its, rest)
            | _, _ => None
            end
        | [] => None
        end
      else
        match parse_class s' with
        | Some (its, rest) => Some (IChar c :: its, rest)
        | None => None
        end
  end.

Definition expect_close (x : option (regex * list ascii))
  : option (regex * list ascii) :=
  match x with
  | Some (r, ")"%char :: rest) => Some (r, rest)
  | _ => None
  end.

(** Recursive descent: alternatives of sequences of quantified atoms. *)
Fixpoint parse_alt (fuel : nat) (s : list ascii) {struct fuel}
  : option (regex * list ascii) :=
  match fuel with
  | O => None
  | S f =>
      match parse_seq f s with
      | Some (a, "|"%char :: rest) =>
          match parse_alt f rest with
          | Some (b, rest') => Some (Alt a b, rest')
          | None => None
          end
      | other => other
      end
  end
with parse_seq (fuel : nat) (s : list ascii) {struct fuel}
  : option (regex * list ascii) :=
  match fuel with
  | O => None
  | S f =>
      match s with
      | [] => Some (Eps, s)
      | "|"%char :: _ => Some (Eps, s)
      | ")"%char :: _ => Some (Eps, s)
      | _ =>
          match parse_atom f s with
          | Some (a, rest) =>
              match parse_quant a rest with
              | Some (q, rest') =>
                  match parse_seq f rest' with
                  | Some (b, rest'') => Some (Seq q b, rest'')
                  | None => None
                  end
              | None => None
              end
          | None => None
          end
      end
  end
with parse_atom (fuel : nat) (s : list ascii) {struct fuel}
  : option (regex * list ascii) :=
  match fuel with
  | O => None
  | S f =>
      match s with
      | [] => None
      | "("%char :: "?"%char :: "<"%char :: "!"%char :: s' =>
          match expect_close (parse_alt f s') with
          | Some (a, rest) =>
              match width a with
              | Some w => Some (NegBehind w a, rest)
              | None => None
              end
          | None => None
          end
      | "("%char :: "?"%char :: "!"%char :: s' =>
          match expect_close (parse_alt f s') with
          | Some (a, rest) => Some (NegAhead a, rest)
          | None => None
          end
      | "("%char :: "?"%char :: _ => None
      | "("%char :: s' => expect_close (parse_alt f s')
      | "["%char :: s' =>
          match parse_class s' with
          | Some (its, rest) => Some (Cls its, rest)
          | None => None
          end
      | "\"%char :: e :: s' =>
          match parse_escape e with
          | Some a => Some (a, s')
          | None => None
          end
      | "\"%char :: [] => None
      | "."%char :: s' => Some (Any, s')
      | "^"%char :: s' => Some (Bol, s')
      | "$"%char :: s' => Some (Eol, s')
      | "*"%char :: _ => None
      | "+"%char :: _ => None
      | "?"%char :: _ => None
      | "{"%char :: _ => None
      | c :: s' => Some (Chr c, s')
      end
  end.

(** [re.compile]: [None] where Python raises [re.error] or the pattern lies
    outside the fragment. *)
Definition compile (pattern : string) : option regex :=
  let s := list_ascii_of_string pattern in
  match parse_alt (3 * List.length s + 3) s with
  | Some (r, []) => Some r
  | _ => None
  end.

(** *** Two views of a pattern used by the proofs *)

(** The position [p] over the lower-cased subject. *)
Definition lo (p : pos) : pos :=
  mkPos (map lower_ascii (before p)) (map lower_ascii (after p)).

(** A sufficient syntactic test that every match of a pattern consumes at
    least one character that is not white space. *)
Definition inked_item (i : citem) : bool :=
  match i with
  | IChar c => negb (is_space c)
  | IWord | IDigit => true
  end.

Fixpoint inked (r : regex) : bool :=
  match r with
  | Chr c => negb (is_space c)
  | Cls items => forallb inked_item items
  | Seq a b => inked a || inked b
  | Alt a b => inked a && inked b
  | Eps | Any | Bol | Eol | WordB | Star _ | NegAhead _ | NegBehind _ _ => false
  end.

(** *** Relations between continuations and positions used by the proofs *)

(** [k] on the lower-cased subject decides as [k'] does on the subject. *)
Definition agree (k k' : pos -> bool) : Prop := forall p, k (lo p) = k' p.

(** [q] is [p] or a later position of the same subject. *)
Definition tail_of (q p : pos) : Prop := exists l, after p = l ++ after q.

(** [k] is reached from [p]: it accepts some position at or after [p]. *)
Definition reached (k : pos -> bool) (p : pos) : Prop :=
  exists q, tail_of q p /\ k q = true.

(** [k2] accepts wherever [k1] does. *)
Definition below (k1 k2 : pos -> bool) : Prop :=
  forall p, k1 p = true -> k2 p = true.

(** White space only. *)
Definition blanks (l : list ascii) : Prop := Forall (fun x => is_space x = true) l.

End Re.

(** [re.search(pattern, text, re.IGNORECASE)] as a truth value. *)
Definition re_search (pattern text : string) : bool :=
  match Re.compile pattern with
  | Some r => Re.search r (list_ascii_of_string text)
  | None => false
  end.


(** ** Python helpers *)

(** [str.lower]. *)
Fixpoint lower (s : string) : string :=
  match s with
  | EmptyString => EmptyString
  | String c s' => String (Re.lower_ascii c) (lower s')
  end.

(** [s or ""] on a [str]. *)
Definition or_empty (s : string) : string :=
  match s with
  | EmptyString => ""
  | _ => s
  end.

(** Truth value of a list. *)
Definition nonempty {A : Type} (l : list A) : bool :=
  match l with
  | [] => false
  | _ => true
  end.

(** [a > b] on confidence values. *)
Definition Qgtb (a b : Q) : bool := negb (Qle_bool a b).

(** ** The result record *)

Record Classification : Type := mkClassification {
  relevance : string;          (* core_street_crime, peripheral_crime, not_crime *)
  crime_types : list string;
  confidence : Q;
  location : string
}.

(** ** Pattern tables *)

Definition EXCLUDE_TITLE_PATTERNS : list string := [
  "^(Register|Sign up|Login|Subscribe)";
  "^(Listings? By|Directory|Careers|Jobs)";
  "Classifieds?$";
  "^\w+ (Physio|Clinic|Centre|Center|Service)$";
  "^Local (Sports|Events|Weather)$";
  "^Spotlight$";
  "(Part.Time|Full.Time|Hiring|Position|Vacancy)"
].

Definition NON_CRIME_TITLE_PATTERNS : list string := [
  "(retirement|retires|retiring)";
  "(recipe|restaurant|dining|chef|cuisine)";
  "(concert|festival|exhibition|lineup)";
  "shoots? down.*(rumour|bill|proposal|idea)";
  "(water main|pipe) break";
  "turning heads";
  "Trappers?.*\d{4}"
].

Definition VIOLENT_CRIME_PATTERNS : list (string * Q) := [
  ("(murder|homicide|manslaughter)", 0.95%Q);
  ("(?<!photo )(?<!film )(shooting|shootout|shot dead|shots fired|gunfire|gunshot)", 0.90%Q);
  ("(stab|stabbing|stabbed|knife attack)", 0.90%Q);
  ("(assault|assaulted|beaten|beating).*(charged|arrest|police|victim|hospital)", 0.85%Q);
  ("(charged|multiple|violent).*(assault|assaults)", 0.85%Q);
  ("assault.*(charged|arrest|melee|victim)", 0.85%Q);
  ("(kidnap|abduct|hostage)", 0.90%Q);
  ("(sexual assault|rape|sex assault|sexual exploitation)", 0.90%Q);
  ("(human remains|body|person|child|man|woman) found dead", 0.80%Q);
  ("found dead.*(police|investigate|home|property)", 0.80%Q);
  ("(armed robbery|robbery.+weapon)", 0.85%Q);
  ("(hit.and.run|hit and run).*(dies|dead|fatal|kill|charged)", 0.85%Q);
  ("(attack|attacked).*(charged|arrest|victim|injur|police|guard)", 0.80%Q);
  ("(guard|officer|worker) attacked", 0.80%Q);
  ("(intimate partner|domestic).*(violence|assault)", 0.85%Q);
  ("(fleeing|fled).*(violence|assault)", 0.80%Q);
  ("(baby|child|infant).*(abandoned|abandonment)", 0.85%Q);
  ("pleads? guilty.*(assault|attack|violence)", 0.85%Q);
  ("arrested.*(laceration|hospitalized|injur)", 0.80%Q)
].

Definition PROPERTY_CRIME_PATTERNS : list (string * Q) := [
  ("(theft|stolen|shoplifting|larceny).*(police|arrest|charged|suspect|investigating)", 0.85%Q);
  ("(police|investigating).*(stolen|theft)", 0.80%Q);
  ("(mezuzah|items?|property) stolen", 0.80%Q);
  ("\d+ arrests?.*(theft|retail|shoplifting)", 0.85%Q);
  ("arrests?.*(charges?|laid).*(theft|retail)", 0.85%Q);
  ("(burglary|break.in|breaking.+entering)(?!.*(water|pipe|main))", 0.85%Q);
  ("arson(?!.*(water|pipe))", 0.80%Q);
  ("(vandalism|vandalized).*(charged|arrest)", 0.80%Q);
  ("(car theft|auto theft|vehicle stolen|carjacking)", 0.85%Q);
  ("\$[\d,]+.*(stolen|theft|booze stolen)", 0.85%Q);
  ("(rammed|ram).*(stolen|police)", 0.80%Q);
  ("stolen vehicle.*(ram|cruiser|police)", 0.80%Q)
].

Definition DRUG_CRIME_PATTERNS : list (string * Q) := [
  ("(drug bust|drug raid|drug seizure)", 0.90%Q);
  ("(fentanyl|cocaine|heroin|meth|methamphetamine).*(seiz|bust|arrest|charged|trafficking)", 0.90%Q);
  ("(trafficking|trafficker|dealer).*(drug|narcotic)", 0.85%Q);
  ("possession.+(intent|purpose)", 0.80%Q);
  ("seize.+\$[\d,]+.*(drug|cocaine|fentanyl)", 0.90%Q);
  ("seizes?.*(fentanyl|cocaine|heroin|drug|narcotic|doses)", 0.90%Q);
  ("(fentanyl|cocaine|heroin).*(doses|seized|weapons)", 0.90%Q);
  ("intercept.*(fentanyl|cocaine|trafficker|drug)", 0.90%Q);
  ("(fentanyl|drug) trafficker", 0.90%Q)
].

Definition GANG_PATTERNS : list (string * Q) := [
  ("(gang.related|gang member|gang shooting|gang violence)", 0.90%Q);
  ("(drive.by|turf war|gang rivalry)", 0.85%Q)
].

Definition ORGANIZED_CRIME_PATTERNS : list (string * Q) := [
  ("(organized crime|crime syndicate|crime ring)", 0.85%Q);
  ("(mafia|mob boss|cartel)", 0.85%Q);
  ("(human trafficking|trafficking ring)", 0.85%Q);
  ("(money laundering|RICO)", 0.80%Q)
].

Definition CRIMINAL_JUSTICE_PATTERNS : list (string * Q) := [
  ("(charged|arrest|arrested)", 0.70%Q);
  ("(sentenced|sentencing|conviction|convicted)", 0.75%Q);
  ("(trial|verdict|arraignment)", 0.70%Q);
  ("(plead|pleads|pleaded) guilty", 0.80%Q);
  ("warrant", 0.65%Q);
  ("standoff.*(arrest|charged|custody)", 0.80%Q);
  ("(police|armed) standoff", 0.75%Q);
  ("escapes?.*(jail|prison|custody)", 0.85%Q);
  ("(jail|prison) escape", 0.85%Q)
].

Definition IMPAIRED_DRIVING_PATTERNS : list string := [
  "(impaired driving|drunk driving|DUI|DWI)";
  "(impaired|intoxicated).+(driver|driving|motorist)"
].

Definition INTERNATIONAL_INDICATORS : list string := [
  "Minneapolis"; "\bUS\b"; "U\.S\."; "American"; "Mexico"; "Dutch";
  "European"; "Yemen"; "Myanmar"; "Congo"; "Venezuela"; "Israel";
  "Gaza"; "Greenland"; "Danish"; "Thailand"; "Cambodia"; "Malaysia"
].

Definition POLICY_PATTERNS : list string := [
  "(crime rate|crime statistics|crime down|crime up)";
  "(police budget|policing policy|crime policy)";
  "(crackdown on|spike in|rise in|wave of)";
  "(mayor|council|government).*(crime|police)";
  "(declares|declared|address|addressing).*(epidemic|crisis)";
  "^In the news today:"
].

Definition PERIPHERAL_SPECIFIC_PATTERNS : list string := [
  "stole.*(returned|return)";
  "awaits? Crown.*(decision|charges)";
  "(law licence|licence assessment).*(abuse|assault)";
  "(cleared|exonerated).*(arrest|force)";
  "Year in review.*(crime|high crimes)"
].

Definition CANADIAN_LOCATIONS : list string := [
  "Sudbury"; "Sault"; "North Bay"; "Toronto"; "Ottawa"; "Hamilton";
  "Barrie"; "Oshawa"; "Thunder Bay"; "Montreal"; "Vancouver"; "Calgary";
  "Edmonton"; "Winnipeg"; "Halifax"; "Regina"; "Saskatoon"; "Brampton";
  "Mississauga"; "London"; "Ontario"; "Quebec"; "Manitoba"; "Alberta";
  "British Columbia"; "Nova Scotia"; "Ont\."; "Que\."
].

(** The patterns written inline in [classify_article]. *)
Definition STRONG_CRIME_KEYWORDS : string :=
  "(murder|homicide|assault|theft|robbery|arrest|charged)".
Definition INFRASTRUCTURE_BREAK : string :=
  "(water main|pipe|infrastructure).*(break|burst)".
Definition SPORTS_TEAMS : string :=
  "(Trappers?|Wolves|Greyhounds|Battalions?).*(hockey|\d{4})".
Definition SHOOTS_DOWN : string := "shoots? down.*(rumour|bill|proposal)".
Definition ESCAPE_CUSTODY : string := "escapes?.*(jail|prison|custody)".
Definition STANDOFF_ARREST : string := "standoff.*(arrest|charged)".
Definition STANDALONE_INCIDENT : string := "(standoff|escape)".
Definition THEFT_CUE : string := "stole|theft".
Definition VIOLENCE_CUE : string := "assault|abuse|violence".
Definition HARD_INCIDENT : string := "(charged|arrest|sentenced|murder|shot|stabbed)".
Definition COLLISION_CUE : string :=
  "(collision|crash|hit.and.run|injur|fatal|kill|dies)".
Definition NATIONAL_KEYWORDS : list string :=
  ["RCMP"; "federal"; "across Canada"; "nationwide"].

(** ** Matchers *)

(** Check if text matches any pattern, return (matched, max_confidence). *)
Definition match_patterns (text : string) (patterns : list (string * Q)) : bool * Q :=
  let text := lower text in
  let max_conf :=
    fold_left
      (fun max_conf rule =>
         if re_search (fst rule) text then Qmax max_conf (snd rule) else max_conf)
      patterns 0%Q in
  (Qgtb max_conf 0%Q, max_conf).

(** Check if text matches any pattern (no confidence). *)
Definition match_any (text : string) (patterns : list string) : bool :=
  let text := lower text in
  existsb (fun pattern => re_search pattern text) patterns.

(** ** [classify_article] *)

(** Step 1: the three exclusion checks, each returning the default result. *)
Definition excluded_structural (title : string) : bool :=
  existsb (fun pattern => re_search pattern title) EXCLUDE_TITLE_PATTERNS.

Definition excluded_non_crime (title : string) : bool :=
  existsb
    (fun pattern =>
       re_search pattern title && negb (re_search STRONG_CRIME_KEYWORDS title))
    NON_CRIME_TITLE_PATTERNS.

Definition excluded_false_positive (title : string) : bool :=
  re_search INFRASTRUCTURE_BREAK title
  || re_search SPORTS_TEAMS title
  || re_search SHOOTS_DOWN title.

Definition excluded (title : string) : bool :=
  excluded_structural title || excluded_non_crime title
  || excluded_false_positive title.

(** Step 2: the running pair (crime_types, max_confidence). *)
Definition tally : Type := (list string * Q)%type.

Definition tag (name : string) (patterns : list (string * Q)) (title : string)
  (st : tally) : tally :=
  let '(matched, conf) := match_patterns title patterns in
  if matched then (fst st ++ [name], Qmax (snd st) conf) else st.

(** Criminal justice (modifier). *)
Definition tag_justice (title : string) (st : tally) : tally :=
  let '(matched, conf) := match_patterns title CRIMINAL_JUSTICE_PATTERNS in
  if matched then
    let st1 :=
      if re_search ESCAPE_CUSTODY title
      then (fst st ++ ["other_crime"], Qmax (snd st) conf)
      else st in
    let st2 :=
      if re_search STANDOFF_ARREST title
      then (fst st1, Qmax (snd st1) conf)
      else st1 in
    if nonempty (fst st2) || re_search STANDALONE_INCIDENT title
    then (fst st2 ++ ["criminal_justice"], snd st2)
    else st2
  else st.

Definition core_patterns (title : string) : tally :=
  let st := ([], 0%Q) in
  let st := tag "violent_crime" VIOLENT_CRIME_PATTERNS title st in
  let st := tag "property_crime" PROPERTY_CRIME_PATTERNS title st in
  let st := tag "drug_crime" DRUG_CRIME_PATTERNS title st in
  let st := tag "gang_violence" GANG_PATTERNS title st in
  let st := tag "organized_crime" ORGANIZED_CRIME_PATTERNS title st in
  tag_justice title st.

(** Crime types assigned by the peripheral-specific override. *)
Definition peripheral_types (title : string) : list string :=
  if re_search THEFT_CUE title then ["property_crime"; "criminal_justice"]
  else if re_search VIOLENCE_CUE title then ["violent_crime"; "criminal_justice"]
  else ["criminal_justice"].

(** Step 3, the if/elif chain: relevance, crime types and confidence. *)
Definition peripheral_chain (title : string) (is_international is_impaired is_policy : bool)
  (st : tally) : string * tally :=
  if is_impaired then
    if re_search COLLISION_CUE title
    then ("core_street_crime", (fst st ++ ["violent_crime"], Qmax (snd st) 0.80%Q))
    else ("peripheral_crime", (["criminal_justice"], 0.70%Q))
  else if is_international && nonempty (fst st) then
    ("peripheral_crime", (fst st, Qmin (snd st) 0.65%Q))
  else if is_policy then
    ("peripheral_crime", (fst st, 0.50%Q))
  else if nonempty (fst st) then
    ("core_street_crime", st)
  else
    ("not_crime", st).

(** Step 4. *)
Definition determine_location (combined : string) (is_international : bool) : string :=
  if match_any combined CANADIAN_LOCATIONS then "local_canada"
  else if match_any combined NATIONAL_KEYWORDS then "national_canada"
  else if is_international then "international"
  else "not_specified".

(** Title + first 500 chars of body. *)
Definition combined_window (title body : string) : string :=
  title ++ " " ++ substring 0 500 body.

Definition classify_article (title body : string) : Classification :=
  let title := or_empty title in
  let body := or_empty body in
  let combined := combined_window title body in
  let result := mkClassification "not_crime" [] 0%Q "not_specified" in
  if excluded title then result
  else
    let st := core_patterns title in
    let is_international := match_any title INTERNATIONAL_INDICATORS in
    let is_impaired := match_any title IMPAIRED_DRIVING_PATTERNS in
    let is_policy := match_any title POLICY_PATTERNS in
    let is_peripheral_specific := match_any title PERIPHERAL_SPECIFIC_PATTERNS in
    if is_peripheral_specific then
      mkClassification "peripheral_crime" (peripheral_types title) 0.60%Q
        "not_specified"
    else if is_policy && negb (re_search HARD_INCIDENT title) then
      mkClassification "peripheral_crime"
        (if nonempty (fst st) then fst st else []) 0.50%Q "not_specified"
    else
      let '(rel, (crime_types, max_confidence)) :=
        peripheral_chain title is_international is_impaired is_policy st in
      mkClassification rel crime_types max_confidence
        (determine_location combined is_international).


(** ** Names used by the statements *)

(** The five substantive groups of step 2, in the order they are scanned. *)
Definition GROUPS : list (string * list (string * Q)) := [
  ("violent_crime", VIOLENT_CRIME_PATTERNS);
  ("property_crime", PROPERTY_CRIME_PATTERNS);
  ("drug_crime", DRUG_CRIME_PATTERNS);
  ("gang_violence", GANG_PATTERNS);
  ("organized_crime", ORGANIZED_CRIME_PATTERNS)
].

(** Step 2 before the criminal-justice modifier. *)
Definition substantive (title : string) : tally :=
  tag "organized_crime" ORGANIZED_CRIME_PATTERNS title
    (tag "gang_violence" GANG_PATTERNS title
       (tag "drug_crime" DRUG_CRIME_PATTERNS title
          (tag "property_crime" PROPERTY_CRIME_PATTERNS title
             (tag "violent_crime" VIOLENT_CRIME_PATTERNS title ([], 0%Q))))).

(** The inputs [classify_article] returns before step 4. *)
Definition early_return (title : string) : bool :=
  excluded title
  || match_any title PERIPHERAL_SPECIFIC_PATTERNS
  || (match_any title POLICY_PATTERNS && negb (re_search HARD_INCIDENT title)).

(** Empty or white space only. *)
Definition blank (s : string) : bool :=
  forallb Re.is_space (list_ascii_of_string s).

(** The pattern, once compiled, cannot match inside white space. *)
Definition inked_pattern (pattern : string) : bool :=
  match Re.compile pattern with
  | Some r => Re.inked r
  | None => true
  end.

(** The rules whose weight step 2 folds into the confidence: those of the
    five substantive groups, and those of the criminal-justice group when
    the title matches one of its two guards. *)
Definition counted_rules (title : string) : list (string * Q) :=
  List.concat (map snd GROUPS)
  ++ (if re_search ESCAPE_CUSTODY title || re_search STANDOFF_ARREST title
      then CRIMINAL_JUSTICE_PATTERNS else []).

(** [c] is the largest weight among the rules that match [text], and 0 when
    none does. *)
Definition max_weight (text : string) (rules : list (string * Q)) (c : Q) : Prop :=
  (forall p w, In (p, w) rules -> re_search p text = true -> (w <= c)%Q)
  /\ ((exists p w, In (p, w) rules /\ re_search p text = true /\ c = w)
      \/ (c = 0%Q /\ forall p w, In (p, w) rules -> re_search p text = false)).

Definition positive_weights (rules : list (string * Q)) : bool :=
  forallb (fun rule => Qgtb (snd rule) 0%Q) rules.

(** The loop of [match_patterns] from a running maximum [acc]. *)
Definition scan (text : string) (patterns : list (string * Q)) (acc : Q) : Q :=
  fold_left
    (fun max_conf rule =>
       if re_search (fst rule) text then Qmax max_conf (snd rule) else max_conf)
    patterns acc.

Arguments re_search : simpl never.
Arguments match_any : simpl never.
Arguments match_patterns : simpl never.
Arguments excluded : simpl never.
Arguments core_patterns : simpl never.
Arguments substantive : simpl never.

(** ** The dataset analysis of [main]

    The exported articles and the rows [main] builds from them, with the
    keys the analysis reads.  A missing or null [raw_text] is [None]; a null
    [topics] is [None] and a missing one the empty list. *)

Record Article : Type := mkArticle {
  art_id : string;
  art_title : string;
  art_raw_text : option string;
  art_topics : option (list string)
}.

Record Row : Type := mkRow {
  row_id : string;
  row_title : string;
  current_topics : option (list string);
  new_relevance : string;
  new_crime_types : list string;
  new_location : string;
  row_confidence : Q
}.

(** One iteration of the classification loop. *)
Definition classify_row (article : Article) : Row :=
  let classification :=
    classify_article (art_title article)
      (match art_raw_text article with Some b => b | None => "" end) in
  mkRow (art_id article) (art_title article) (art_topics article)
    (relevance classification) (crime_types classification)
    (location classification) (confidence classification).

Definition crime_topics : list string :=
  ["violent_crime"; "property_crime"; "drug_crime"; "gang_violence";
   "organized_crime"; "criminal_justice"; "crime"].

(** [x or []] on a list that may be null. *)
Definition or_nil (l : option (list string)) : list string :=
  match l with
  | Some l' => l'
  | None => []
  end.

Definition mem (x : string) (l : list string) : bool := existsb (String.eqb x) l.

(** [bool(set(r['current_topics'] or []) & crime_topics)]. *)
Definition has_current_crime (r : Row) : bool :=
  existsb (fun t => mem t crime_topics) (or_nil (current_topics r)).

(** [r['new_relevance'] in ('core_street_crime', 'peripheral_crime')]. *)
Definition has_new_crime (r : Row) : bool :=
  mem (new_relevance r) ["core_street_crime"; "peripheral_crime"].

(** The five counters of the confusion analysis. *)
Record Confusion : Type := mkConfusion {
  current_has_crime : nat;
  new_has_crime : nat;
  both_crime : nat;
  current_only : nat;
  new_only : nat
}.

Definition bump (b : bool) (n : nat) : nat := if b then n + 1 else n.

Definition confusion_step (c : Confusion) (r : Row) : Confusion :=
  let has_current_crime := has_current_crime r in
  let has_new_crime := has_new_crime r in
  mkConfusion
    (bump has_current_crime (current_has_crime c))
    (bump has_new_crime (new_has_crime c))
    (bump (has_current_crime && has_new_crime) (both_crime c))
    (bump (has_current_crime && negb has_new_crime) (current_only c))
    (bump (has_new_crime && negb has_current_crime) (new_only c)).

Definition confusion (results : list Row) : Confusion :=
  fold_left confusion_step results (mkConfusion 0 0 0 0 0).

(** The three lists of sample corrections. *)
Definition fn_fixed (results : list Row) : list Row :=
  filter (fun r => String.eqb (new_relevance r) "core_street_crime"
                   && negb (has_current_crime r)) results.

Definition fp_fixed (results : list Row) : list Row :=
  filter (fun r => String.eqb (new_relevance r) "not_crime"
                   && has_current_crime r) results.

Definition overtagged_fixed (results : list Row) : list Row :=
  filter (fun r => String.eqb (new_relevance r) "core_street_crime"
                   && (4 <? List.length (or_nil (current_topics r)))) results.

Definition core_articles (results : list Row) : list Row :=
  filter (fun r => String.eqb (new_relevance r) "core_street_crime") results.

(** ** More names used by the statements *)

(** What the counters of the confusion analysis satisfy after [n] rows. *)
Definition consistent (c : Confusion) (n : nat) : Prop :=
  current_has_crime c = both_crime c + current_only c
  /\ new_has_crime c = both_crime c + new_only c
  /\ both_crime c + current_only c + new_only c <= n.

(** Every weighted rule of the tables. *)
Definition ALL_RULES : list (string * Q) :=
  List.concat (map snd GROUPS) ++ CRIMINAL_JUSTICE_PATTERNS.

(** Every pattern [classify_article] can hand to [re.search]. *)
Definition ALL_PATTERNS : list string :=
  EXCLUDE_TITLE_PATTERNS ++ NON_CRIME_TITLE_PATTERNS ++ map fst ALL_RULES
  ++ IMPAIRED_DRIVING_PATTERNS ++ INTERNATIONAL_INDICATORS ++ POLICY_PATTERNS
  ++ PERIPHERAL_SPECIFIC_PATTERNS ++ CANADIAN_LOCATIONS ++ NATIONAL_KEYWORDS
  ++ [STRONG_CRIME_KEYWORDS; INFRASTRUCTURE_BREAK; SPORTS_TEAMS; SHOOTS_DOWN;
      ESCAPE_CUSTODY; STANDOFF_ARREST; STANDALONE_INCIDENT; THEFT_CUE;
      VIOLENCE_CUE; HARD_INCIDENT; COLLISION_CUE].

Definition RELEVANCE_LABELS : list string :=
  ["core_street_crime"; "peripheral_crime"; "not_crime"].

Definition LOCATION_LABELS : list string :=
  ["local_canada"; "national_canada"; "international"; "not_specified"].

Definition CRIME_TYPE_NAMES : list string :=
  map fst GROUPS ++ ["other_crime"; "criminal_justice"].

Definition weights_within (rules : list (string * Q)) : bool :=
  forallb (fun rule => Qle_bool 0%Q (snd rule) && Qle_bool (snd rule) 0.95%Q) rules.

(** * Properties of the matcher *)

Module ReFacts.
Import Re.

(** ** Characters, by enumeration of the 256 codes *)

Ltac by_cases_on c :=
  destruct c as [[] [] [] [] [] [] [] []]; try reflexivity; try discriminate.

Lemma lower_ascii_idem (c : ascii) : lower_ascii (lower_ascii c) = lower_ascii c.
Proof. by_cases_on c. Qed.

Lemma newline_lower (c : ascii) :
  Ascii.eqb (lower_ascii c) newline = Ascii.eqb c newline.
Proof. by_cases_on c. Qed.

Lemma is_word_lower (c : ascii) : is_word (lower_ascii c) = is_word c.
Proof. by_cases_on c. Qed.

Lemma is_digit_lower (c : ascii) : is_digit (lower_ascii c) = is_digit c.
Proof. by_cases_on c. Qed.

Lemma is_space_lower (c : ascii) : is_space (lower_ascii c) = is_space c.
Proof. by_cases_on c. Qed.

Lemma space_lower_fixed (c : ascii) : is_space c = true -> lower_ascii c = c.
Proof. by_cases_on c. Qed.

Lemma space_not_word (c : ascii) : is_space c = true -> is_word c = false.
Proof. by_cases_on c. Qed.

Lemma space_not_digit (c : ascii) : is_space c = true -> is_digit c = false.
Proof. by_cases_on c. Qed.

Lemma ci_eqb_lower (c x : ascii) : ci_eqb c (lower_ascii x) = ci_eqb c x.
Proof. unfold ci_eqb. now rewrite lower_ascii_idem. Qed.

Lemma in_item_lower (x : ascii) (i : citem) :
  in_item (lower_ascii x) i = in_item x i.
Proof.
  destruct i; simpl.
  - apply ci_eqb_lower.
  - apply is_word_lower.
  - apply is_digit_lower.
Qed.

Lemma ci_eqb_space (c x : ascii) :
  is_space x = true -> is_space c = false -> ci_eqb c x = false.
Proof.
  intros Hx Hc. unfold ci_eqb. apply Ascii.eqb_neq. intro E.
  rewrite (space_lower_fixed x Hx) in E.
  rewrite <- (is_space_lower c), E, Hx in Hc. discriminate.
Qed.

(** ** Lower-casing the subject does not change a case-blind match *)

Lemma remaining_lo (p : pos) : remaining (lo p) = remaining p.
Proof. unfold remaining, lo; simpl. apply length_map. Qed.

Lemma back_lo (w : nat) : forall p, back w (lo p) = option_map lo (back w p).
Proof.
  induction w as [|w IH]; intros p; simpl; [reflexivity|].
  destruct (before p) as [|x bs]; simpl; [reflexivity|].
  apply (IH (mkPos bs (x :: after p))).
Qed.

Lemma word_at_lower (l : list ascii) : word_at (map lower_ascii l) = word_at l.
Proof. destruct l; simpl; [reflexivity | apply is_word_lower]. Qed.

Lemma at_end_lower (l : list ascii) : at_end (map lower_ascii l) = at_end l.
Proof.
  destruct l as [|x [|y l]]; simpl; try reflexivity. apply newline_lower.
Qed.

Lemma is_nil_map (l : list ascii) : is_nil (map lower_ascii l) = is_nil l.
Proof. destruct l; reflexivity. Qed.

Lemma existsb_in_item_lower (x : ascii) (items : list citem) :
  existsb (in_item (lower_ascii x)) items = existsb (in_item x) items.
Proof.
  induction items as [|i items IH]; simpl; [reflexivity|].
  now rewrite in_item_lower, IH.
Qed.

Section StarLower.
Variable ma : (pos -> bool) -> pos -> bool.
Hypothesis Hma : forall k k', agree k k' -> agree (ma k) (ma k').

Lemma star_loop_lower (k k' : pos -> bool) :
  agree k k' -> forall fuel, agree (star_loop ma k fuel) (star_loop ma k' fuel).
Proof.
  intros Hk fuel. induction fuel as [|f IH]; intros p; simpl; rewrite Hk.
  - reflexivity.
  - destruct (k' p); [reflexivity|].
    apply Hma. intros q. rewrite !remaining_lo.
    destruct (remaining q <? remaining p); [apply IH | reflexivity].
Qed.
End StarLower.

Lemma m_lower (r : regex) : forall k k', agree k k' -> agree (m r k) (m r k').
Proof.
  induction r as [ | c | | items | | | | a IHa b IHb | a IHa b IHb | a IHa
                 | a IHa | w a IHa ]; intros k k' Hk p; simpl.
  - apply Hk.
  - destruct (after p) as [|x xs]; simpl; [reflexivity|].
    rewrite ci_eqb_lower. destruct (ci_eqb c x); [|reflexivity].
    apply (Hk (step x xs p)).
  - destruct (after p) as [|x xs]; simpl; [reflexivity|].
    rewrite newline_lower. destruct (Ascii.eqb x newline); [reflexivity|].
    apply (Hk (step x xs p)).
  - destruct (after p) as [|x xs]; simpl; [reflexivity|].
    rewrite existsb_in_item_lower.
    destruct (existsb (in_item x) items); [|reflexivity].
    apply (Hk (step x xs p)).
  - rewrite is_nil_map, Hk. reflexivity.
  - rewrite at_end_lower, Hk. reflexivity.
  - rewrite !word_at_lower, Hk. reflexivity.
  - apply IHa. intros q. apply IHb, Hk.
  - rewrite (IHa k k' Hk p), (IHb k k' Hk p). reflexivity.
  - fold (remaining (lo p)). rewrite remaining_lo.
    apply star_loop_lower; assumption.
  - rewrite (IHa yes yes (fun _ => eq_refl) p), Hk. reflexivity.
  - rewrite back_lo. destruct (back w p) as [q|]; simpl; [|apply Hk].
    rewrite Hk.
    rewrite (IHa (fun e => remaining e =? remaining (lo p))
                 (fun e => remaining e =? remaining p)); [reflexivity|].
    intros e. now rewrite !remaining_lo.
Qed.

Lemma m_lower_yes (r : regex) (bs xs : list ascii) :
  m r yes (mkPos (map lower_ascii bs) (map lower_ascii xs))
  = m r yes (mkPos bs xs).
Proof. apply (m_lower r yes yes (fun _ => eq_refl) (mkPos bs xs)). Qed.

Lemma search_from_eq (r : regex) (bs xs : list ascii) :
  search_from r bs xs =
  if m r yes (mkPos bs xs) then true
  else match xs with
       | [] => false
       | x :: xs' => search_from r (x :: bs) xs'
       end.
Proof. destruct xs; reflexivity. Qed.

Lemma search_from_lower (r : regex) (xs : list ascii) : forall bs,
  search_from r (map lower_ascii bs) (map lower_ascii xs) = search_from r bs xs.
Proof.
  induction xs as [|x xs IH]; intros bs;
    rewrite (search_from_eq r (map lower_ascii bs)), (search_from_eq r bs),
      m_lower_yes; destruct (m r yes (mkPos bs _)); try reflexivity.
  apply (IH (x :: bs)).
Qed.

Lemma search_lower (r : regex) (text : list ascii) :
  search r (map lower_ascii text) = search r text.
Proof. apply (search_from_lower r text []). Qed.

(** ** A match hands the continuation a later position *)

Lemma tail_of_refl (p : pos) : tail_of p p.
Proof. now exists []. Qed.

Lemma tail_of_trans (p q r : pos) : tail_of r q -> tail_of q p -> tail_of r p.
Proof.
  intros [l1 H1] [l2 H2]. exists (l2 ++ l1). now rewrite H2, H1, app_assoc.
Qed.

Lemma tail_of_step (x : ascii) (xs : list ascii) (p : pos) :
  after p = x :: xs -> tail_of (step x xs p) p.
Proof. intros H. exists [x]. now rewrite H. Qed.

Section StarReached.
Variable ma : (pos -> bool) -> pos -> bool.
Hypothesis Hma : forall k p, ma k p = true -> reached k p.

Lemma star_loop_reached (k : pos -> bool) : forall fuel p,
  star_loop ma k fuel p = true -> reached k p.
Proof.
  induction fuel as [|f IH]; intros p; simpl.
  - destruct (k p) eqn:E; [|discriminate].
    intros _. exists p. split; [apply tail_of_refl | exact E].
  - destruct (k p) eqn:E.
    + intros _. exists p. split; [apply tail_of_refl | exact E].
    + intros H. apply Hma in H. destruct H as (q & Hq & Hk).
      destruct (remaining q <? remaining p); [|discriminate].
      apply IH in Hk. destruct Hk as (q' & Hq' & Hk').
      exists q'. split; [eapply tail_of_trans; eassumption | exact Hk'].
Qed.
End StarReached.

Lemma m_reached (r : regex) : forall k p, m r k p = true -> reached k p.
Proof.
  induction r as [ | c | | items | | | | a IHa b IHb | a IHa b IHb | a IHa
                 | a IHa | w a IHa ]; intros k p; simpl.
  - intros H. exists p. split; [apply tail_of_refl | exact H].
  - destruct (after p) as [|x xs] eqn:E; [discriminate|].
    destruct (ci_eqb c x); [|discriminate].
    intros H. exists (step x xs p). split; [now apply tail_of_step | exact H].
  - destruct (after p) as [|x xs] eqn:E; [discriminate|].
    destruct (Ascii.eqb x newline); [discriminate|].
    intros H. exists (step x xs p). split; [now apply tail_of_step | exact H].
  - destruct (after p) as [|x xs] eqn:E; [discriminate|].
    destruct (existsb (in_item x) items); [|discriminate].
    intros H. exists (step x xs p). split; [now apply tail_of_step | exact H].
  - destruct (is_nil (before p)); [|discriminate].
    intros H. exists p. split; [apply tail_of_refl | exact H].
  - destruct (at_end (after p)); [|discriminate].
    intros H. exists p. split; [apply tail_of_refl | exact H].
  - destruct (xorb _ _); [|discriminate].
    intros H. exists p. split; [apply tail_of_refl | exact H].
  - intros H. apply IHa in H. destruct H as (q & Hq & H).
    apply IHb in H. destruct H as (q' & Hq' & H).
    exists q'. split; [eapply tail_of_trans; eassumption | exact H].
  - destruct (m a k p) eqn:E.
    + intros _. now apply IHa.
    + apply IHb.
  - apply star_loop_reached. exact IHa.
  - destruct (m a yes p); [discriminate|].
    intros H. exists p. split; [apply tail_of_refl | exact H].
  - destruct (back w p) as [q|].
    + destruct (m a _ q); [discriminate|].
      intros H. exists p. split; [apply tail_of_refl | exact H].
    + intros H. exists p. split; [apply tail_of_refl | exact H].
Qed.

(** ** A match only grows with its continuation *)

Section StarMono.
Variable ma : (pos -> bool) -> pos -> bool.
Hypothesis Hma : forall k1 k2, below k1 k2 -> below (ma k1) (ma k2).

Lemma star_loop_mono (k1 k2 : pos -> bool) :
  below k1 k2 -> forall fuel, below (star_loop ma k1 fuel) (star_loop ma k2 fuel).
Proof.
  intros Hk fuel. induction fuel as [|f IH]; intros p; simpl.
  - destruct (k1 p) eqn:E; [|discriminate]. now rewrite (Hk p E).
  - destruct (k1 p) eqn:E.
    + now rewrite (Hk p E).
    + intros H. destruct (k2 p); [reflexivity|].
      revert H. apply Hma. intros q.
      destruct (remaining q <? remaining p); [apply IH | discriminate].
Qed.
End StarMono.

Lemma m_mono (r : regex) : forall k1 k2, below k1 k2 -> below (m r k1) (m r k2).
Proof.
  induction r as [ | c | | items | | | | a IHa b IHb | a IHa b IHb | a IHa
                 | a IHa | w a IHa ]; intros k1 k2 Hk p; simpl.
  - apply Hk.
  - destruct (after p) as [|x xs]; [discriminate|].
    destruct (ci_eqb c x); [apply Hk | discriminate].
  - destruct (after p) as [|x xs]; [discriminate|].
    destruct (Ascii.eqb x newline); [discriminate | apply Hk].
  - destruct (after p) as [|x xs]; [discriminate|].
    destruct (existsb (in_item x) items); [apply Hk | discriminate].
  - destruct (is_nil (before p)); [apply Hk | discriminate].
  - destruct (at_end (after p)); [apply Hk | discriminate].
  - destruct (xorb _ _); [apply Hk | discriminate].
  - apply IHa. intros q. now apply IHb.
  - destruct (m a k1 p) eqn:E.
    + intros _. now rewrite (IHa k1 k2 Hk p E).
    + intros H. rewrite (IHb k1 k2 Hk p H). now destruct (m a k2 p).
  - apply star_loop_mono; assumption.
  - destruct (m a yes p); [discriminate | apply Hk].
  - destruct (back w p) as [q|]; [|apply Hk].
    destruct (m a _ q); [discriminate | apply Hk].
Qed.

(** A match of a sequence starts with a match of its head. *)
Lemma m_seq_head (a b : regex) (p : pos) :
  m (Seq a b) yes p = true -> m a yes p = true.
Proof. simpl. apply m_mono. intros q _. reflexivity. Qed.

Lemma seq_below (a b1 b2 : regex) (k1 k2 : pos -> bool) :
  below (m b1 k1) (m b2 k2) -> below (m (Seq a b1) k1) (m (Seq a b2) k2).
Proof. intros H. simpl. now apply m_mono. Qed.

(** The first branch of a group that ends the pattern. *)
Lemma m_group_left (a b : regex) (p : pos) :
  m a (m Eps yes) p = true -> m (Seq (Alt a b) Eps) yes p = true.
Proof. simpl. intros H. now rewrite H. Qed.

(** A pattern that matches wherever another does is found whenever it is. *)
Lemma search_from_below (r1 r2 : regex) :
  below (m r1 yes) (m r2 yes) ->
  forall xs bs, search_from r1 bs xs = true -> search_from r2 bs xs = true.
Proof.
  intros H xs. induction xs as [|x xs IH]; intros bs;
    rewrite (search_from_eq r1), (search_from_eq r2);
    destruct (m r1 yes (mkPos bs _)) eqn:E;
    try rewrite (H _ E); try reflexivity; try discriminate.
  destruct (m r2 yes _); [reflexivity | apply IH].
Qed.

Lemma search_below (r1 r2 : regex) :
  below (m r1 yes) (m r2 yes) ->
  forall text, search r1 text = true -> search r2 text = true.
Proof. intros H text. apply (search_from_below r1 r2 H text []). Qed.

(** ** No inked pattern matches in white space *)

Lemma blanks_tail (p q : pos) : tail_of q p -> blanks (after p) -> blanks (after q).
Proof.
  intros [l H] Hb. unfold blanks in *. rewrite H in Hb.
  apply Forall_app in Hb. tauto.
Qed.

Lemma inked_items_space (x : ascii) (items : list citem) :
  is_space x = true -> forallb inked_item items = true ->
  existsb (in_item x) items = false.
Proof.
  intros Hx. induction items as [|i items IH]; simpl; [reflexivity|].
  intros H. apply andb_true_iff in H. destruct H as [Hi Hr].
  rewrite (IH Hr), orb_false_r.
  destruct i as [c| |]; simpl in *.
  - apply ci_eqb_space; [exact Hx|]. now destruct (is_space c).
  - now apply space_not_word.
  - now apply space_not_digit.
Qed.

Lemma m_inked (r : regex) : inked r = true ->
  forall k p, blanks (after p) -> m r k p = false.
Proof.
  induction r as [ | c | | items | | | | a IHa b IHb | a IHa b IHb | a IHa
                 | a IHa | w a IHa ]; simpl; intros Hi k p Hb;
    try discriminate.
  - destruct (after p) as [|x xs]; [reflexivity|].
    inversion Hb as [|? ? Hx _]; subst.
    rewrite ci_eqb_space; [reflexivity | exact Hx | now destruct (is_space c)].
  - destruct (after p) as [|x xs]; [reflexivity|].
    inversion Hb as [|? ? Hx _]; subst.
    now rewrite inked_items_space.
  - apply orb_true_iff in Hi. destruct Hi as [Hi|Hi].
    + now apply IHa.
    + destruct (m a (m b k) p) eqn:E; [|reflexivity].
      apply m_reached in E. destruct E as (q & Hq & E).
      rewrite (IHb Hi k q) in E; [discriminate|].
      eapply blanks_tail; eassumption.
  - apply andb_true_iff in Hi. destruct Hi as [Ha Hb'].
    now rewrite (IHa Ha k p Hb), (IHb Hb' k p Hb).
Qed.

Lemma search_from_inked (r : regex) : inked r = true ->
  forall xs bs, blanks xs -> search_from r bs xs = false.
Proof.
  intros Hi xs. induction xs as [|x xs IH]; intros bs Hb; simpl.
  - now rewrite (m_inked r Hi yes (mkPos bs [])).
  - rewrite (m_inked r Hi yes (mkPos bs (x :: xs)) Hb).
    apply IH. now inversion Hb.
Qed.

End ReFacts.

(** * Properties of the helpers *)

Lemma or_empty_id (s : string) : or_empty s = s.
Proof. destruct s; reflexivity. Qed.

Lemma lower_chars (s : string) :
  list_ascii_of_string (lower s) = map Re.lower_ascii (list_ascii_of_string s).
Proof. induction s as [|c s IH]; simpl; [reflexivity | now rewrite IH]. Qed.

(** [re.IGNORECASE] makes the [text.lower()] of the two matchers redundant. *)
Lemma re_search_lower (pattern text : string) :
  re_search pattern (lower text) = re_search pattern text.
Proof.
  unfold re_search. destruct (Re.compile pattern) as [r|]; [|reflexivity].
  rewrite lower_chars. apply ReFacts.search_lower.
Qed.

Lemma match_any_raw (text : string) (patterns : list string) :
  match_any text patterns = existsb (fun pattern => re_search pattern text) patterns.
Proof.
  unfold match_any. induction patterns as [|q l IH]; simpl; [reflexivity|].
  now rewrite re_search_lower, IH.
Qed.

Lemma substring_prefix_idem (n : nat) : forall s,
  substring 0 n (substring 0 n s) = substring 0 n s.
Proof.
  induction n as [|n IH]; intros s.
  - now destruct s.
  - destruct s as [|c s]; simpl; [reflexivity | now rewrite IH].
Qed.

Ltac open_classify :=
  unfold classify_article; cbv zeta; rewrite ?or_empty_id.

Ltac fields := cbn [relevance crime_types confidence location fst snd].

(** * The exclusion stage *)

(** C3.  A title that matches a structural exclusion pattern (stage 1) or one
    of the unconditional false-positive patterns (stage 3) is classified
    not_crime with no crime type and confidence 0, whatever the body. *)
Theorem exclusion_short_circuit (title body : string) :
  (exists pattern, In pattern EXCLUDE_TITLE_PATTERNS
                   /\ re_search pattern title = true)
  \/ re_search INFRASTRUCTURE_BREAK title = true
  \/ re_search SPORTS_TEAMS title = true
  \/ re_search SHOOTS_DOWN title = true ->
  relevance (classify_article title body) = "not_crime"
  /\ crime_types (classify_article title body) = []
  /\ confidence (classify_article title body) = 0%Q.
Proof.
  intros H.
  assert (E : excluded title = true).
  { unfold excluded, excluded_false_positive.
    destruct H as [(q & Hin & Hq) | H].
    - assert (S1 : excluded_structural title = true)
        by (apply existsb_exists; exists q; now split).
      now rewrite S1.
    - destruct (excluded_structural title), (excluded_non_crime title);
        try reflexivity.
      cbn [orb].
      destruct H as [H | [H | H]]; rewrite H;
        repeat rewrite orb_true_r; reflexivity. }
  open_classify. rewrite E. fields. repeat split.
Qed.

Lemma exclusion_short_circuit_witness :
  relevance (classify_article "Login to read: man charged with murder" "Toronto")
    = "not_crime"
  /\ crime_types (classify_article "Login to read: man charged with murder" "Toronto")
    = []
  /\ confidence (classify_article "Login to read: man charged with murder" "Toronto")
    = 0%Q.
Proof.
  apply exclusion_short_circuit. left.
  exists "^(Register|Sign up|Login|Subscribe)". split.
  - simpl. auto.
  - vm_compute. reflexivity.
Defined.

(** * The override chain *)

(** C4.  After the exclusions, a title with impaired-driving wording for which
    neither the peripheral-specific nor the policy override returned: with a
    collision cue the result is core, "violent_crime" is appended to the
    crime types found so far and the confidence is the max of the confidence
    found so far and 0.80; without one the result is peripheral, the crime
    types are exactly ["criminal_justice"] and the confidence is 0.70. *)
Theorem impaired_driving_branch (title body : string) :
  excluded title = false ->
  match_any title IMPAIRED_DRIVING_PATTERNS = true ->
  match_any title PERIPHERAL_SPECIFIC_PATTERNS = false ->
  match_any title POLICY_PATTERNS && negb (re_search HARD_INCIDENT title) = false ->
  let prior := core_patterns title in
  let c := classify_article title body in
  if re_search COLLISION_CUE title
  then relevance c = "core_street_crime"
       /\ crime_types c = fst prior ++ ["violent_crime"]
       /\ confidence c = Qmax (snd prior) 0.80%Q
  else relevance c = "peripheral_crime"
       /\ crime_types c = ["criminal_justice"]
       /\ confidence c = 0.70%Q.
Proof.
  intros Hex Himp Hper Hpol prior c. subst prior c.
  open_classify. rewrite Hex, Hper, Hpol.
  unfold peripheral_chain. rewrite Himp.
  destruct (re_search COLLISION_CUE title); fields; repeat split.
Qed.

Lemma impaired_driving_branch_witness :
  relevance (classify_article "Impaired driver charged after fatal collision" "")
    = "core_street_crime"
  /\ crime_types (classify_article "Impaired driver charged after fatal collision" "")
    = [] ++ ["violent_crime"]
  /\ confidence (classify_article "Impaired driver charged after fatal collision" "")
    = Qmax 0%Q 0.80%Q.
Proof.
  exact (impaired_driving_branch
           "Impaired driver charged after fatal collision" ""
           ltac:(vm_compute; reflexivity) ltac:(vm_compute; reflexivity)
           ltac:(vm_compute; reflexivity) ltac:(vm_compute; reflexivity)).
Defined.

(** C5.  After the exclusions, a title with at least one crime type found and
    an international indicator, for which no earlier branch fired, is
    peripheral and its confidence is the min of the confidence found so far
    and 0.65, hence never above either; the Minneapolis headline is such a
    case. *)
Theorem international_cap :
  (forall title body : string,
     excluded title = false ->
     nonempty (fst (core_patterns title)) = true ->
     match_any title INTERNATIONAL_INDICATORS = true ->
     match_any title PERIPHERAL_SPECIFIC_PATTERNS = false ->
     match_any title POLICY_PATTERNS && negb (re_search HARD_INCIDENT title) = false ->
     match_any title IMPAIRED_DRIVING_PATTERNS = false ->
     let prior := snd (core_patterns title) in
     let c := classify_article title body in
     relevance c = "peripheral_crime"
     /\ confidence c = Qmin prior 0.65%Q
     /\ (confidence c <= 0.65)%Q
     /\ (confidence c <= prior)%Q)
  /\ relevance (classify_article "Minneapolis police investigate downtown shooting" "")
     = "peripheral_crime"
  /\ (confidence (classify_article "Minneapolis police investigate downtown shooting" "")
      <= 0.65)%Q.
Proof.
  split.
  - intros title body Hex Hne Hint Hper Hpol Himp prior c. subst prior c.
    open_classify. rewrite Hex, Hper, Hpol.
    unfold peripheral_chain. rewrite Himp, Hint, Hne. fields.
    repeat split.
    + apply Q.le_min_r.
    + apply Q.le_min_l.
  - split.
    + vm_compute. reflexivity.
    + vm_compute. discriminate.
Qed.

Lemma international_cap_witness :
  relevance (classify_article "Mexico cartel boss arrested" "")
    = "peripheral_crime"
  /\ confidence (classify_article "Mexico cartel boss arrested" "")
    = Qmin (snd (core_patterns "Mexico cartel boss arrested")) 0.65%Q
  /\ (confidence (classify_article "Mexico cartel boss arrested" "") <= 0.65)%Q
  /\ (confidence (classify_article "Mexico cartel boss arrested" "")
      <= snd (core_patterns "Mexico cartel boss arrested"))%Q.
Proof.
  exact (proj1 international_cap "Mexico cartel boss arrested" ""
           ltac:(vm_compute; reflexivity) ltac:(vm_compute; reflexivity)
           ltac:(vm_compute; reflexivity) ltac:(vm_compute; reflexivity)
           ltac:(vm_compute; reflexivity) ltac:(vm_compute; reflexivity)).
Defined.

(** * The body only reaches the location *)

(** C9.  Relevance, crime types and confidence do not depend on the body, and
    classifying with the body or with its first 500 characters gives the same
    result. *)
Theorem body_only_location :
  (forall title b1 b2 : string,
     relevance (classify_article title b1) = relevance (classify_article title b2)
     /\ crime_types (classify_article title b1)
        = crime_types (classify_article title b2)
     /\ confidence (classify_article title b1)
        = confidence (classify_article title b2))
  /\ (forall title body : string,
        classify_article title body
        = classify_article title (substring 0 500 body)).
Proof.
  split.
  - intros title b1 b2. open_classify.
    destruct (excluded title); [repeat split|].
    destruct (match_any title PERIPHERAL_SPECIFIC_PATTERNS); [repeat split|].
    destruct (match_any title POLICY_PATTERNS && negb (re_search HARD_INCIDENT title));
      [repeat split|].
    destruct (peripheral_chain _ _ _ _ _) as [rel [cts conf]].
    fields. repeat split.
  - intros title body. unfold classify_article, combined_window. cbv zeta.
    rewrite !or_empty_id, substring_prefix_idem. reflexivity.
Qed.

(** * The crime types of step 2 *)

Lemma core_patterns_eq (title : string) :
  core_patterns title = tag_justice title (substantive title).
Proof. reflexivity. Qed.

(** The substantive crime types are the names of the matched groups, in
    table order. *)
Lemma substantive_types (title : string) :
  fst (substantive title)
  = map fst (filter (fun g => fst (match_patterns title (snd g))) GROUPS).
Proof.
  unfold substantive, tag, GROUPS. cbn [filter map fst snd].
  destruct (match_patterns title VIOLENT_CRIME_PATTERNS) as [[] c1];
  destruct (match_patterns title PROPERTY_CRIME_PATTERNS) as [[] c2];
  destruct (match_patterns title DRUG_CRIME_PATTERNS) as [[] c3];
  destruct (match_patterns title GANG_PATTERNS) as [[] c4];
  destruct (match_patterns title ORGANIZED_CRIME_PATTERNS) as [[] c5];
  reflexivity.
Qed.

Lemma substantive_names (title name : string) :
  In name (fst (substantive title)) -> In name (map fst GROUPS).
Proof.
  rewrite substantive_types. intros H.
  apply in_map_iff in H. destruct H as (g & Hg & H).
  apply filter_In in H. apply in_map_iff. exists g. tauto.
Qed.

Lemma app_unit_eq {A : Type} (l : list A) (x y : A) :
  l ++ [x] = [y] -> l = [] /\ x = y.
Proof.
  destruct l as [|a [|b l]]; simpl; intros H; inversion H; auto.
Qed.

Lemma core_sole_justice (title : string) :
  fst (core_patterns title) = ["criminal_justice"] ->
  re_search STANDALONE_INCIDENT title = true.
Proof.
  rewrite core_patterns_eq. unfold tag_justice.
  destruct (match_patterns title CRIMINAL_JUSTICE_PATTERNS) as [[] conf].
  - destruct (re_search STANDALONE_INCIDENT title); [reflexivity|].
    rewrite orb_false_r.
    set (st2 := if re_search STANDOFF_ARREST title then _ else _).
    destruct (fst st2) as [|a l] eqn:E; cbn [nonempty]; fields; rewrite ?E.
    + discriminate.
    + intros H. apply app_unit_eq in H. destruct H; discriminate.
  - intros H.
    assert (Hin : In "criminal_justice" (fst (substantive title)))
      by (rewrite H; now left).
    apply substantive_names in Hin. simpl in Hin.
    repeat (destruct Hin as [Hin|Hin]; [discriminate|]). contradiction.
Qed.

(** C7 (as the code has it).  When the returned crime types are exactly
    ["criminal_justice"], the title matches the standalone-incident pattern
    (standoff or escape), or the peripheral-specific override returned, or the
    impaired-driving branch without a collision cue assigned it. *)
Theorem sole_justice_category (title body : string) :
  crime_types (classify_article title body) = ["criminal_justice"] ->
  re_search STANDALONE_INCIDENT title = true
  \/ (excluded title = false
      /\ match_any title PERIPHERAL_SPECIFIC_PATTERNS = true)
  \/ (excluded title = false
      /\ match_any title IMPAIRED_DRIVING_PATTERNS = true
      /\ re_search COLLISION_CUE title = false).
Proof.
  open_classify.
  destruct (excluded title); [discriminate|].
  destruct (match_any title PERIPHERAL_SPECIFIC_PATTERNS); [tauto|].
  destruct (match_any title POLICY_PATTERNS && negb (re_search HARD_INCIDENT title)).
  - fields. intros H. left. apply core_sole_justice.
    destruct (fst (core_patterns title)); [discriminate | exact H].
  - unfold peripheral_chain.
    destruct (match_any title IMPAIRED_DRIVING_PATTERNS).
    + destruct (re_search COLLISION_CUE title); [|tauto].
      fields. intros H. apply app_unit_eq in H. destruct H; discriminate.
    + destruct (match_any title INTERNATIONAL_INDICATORS
                && nonempty (fst (core_patterns title)));
        [|destruct (match_any title POLICY_PATTERNS);
          [|destruct (nonempty (fst (core_patterns title)))]];
        fields; intros H; left; apply core_sole_justice; try exact H.
      all: destruct (core_patterns title); exact H.
Qed.

Lemma sole_justice_category_witness :
  re_search STANDALONE_INCIDENT "Prison escape prompts manhunt" = true
  \/ (excluded "Prison escape prompts manhunt" = false
      /\ match_any "Prison escape prompts manhunt" PERIPHERAL_SPECIFIC_PATTERNS = true)
  \/ (excluded "Prison escape prompts manhunt" = false
      /\ match_any "Prison escape prompts manhunt" IMPAIRED_DRIVING_PATTERNS = true
      /\ re_search COLLISION_CUE "Prison escape prompts manhunt" = false).
Proof.
  apply (sole_justice_category "Prison escape prompts manhunt" "").
  vm_compute. reflexivity.
Defined.

(** C7 as stated fails: a drunk-driving headline without a collision cue gets
    ["criminal_justice"] alone although it names no standoff or escape. *)
Lemma sole_justice_without_incident :
  crime_types (classify_article "Drunk driving suspect stopped on highway" "")
    = ["criminal_justice"]
  /\ re_search STANDALONE_INCIDENT "Drunk driving suspect stopped on highway" = false
  /\ re_search ESCAPE_CUSTODY "Drunk driving suspect stopped on highway" = false
  /\ re_search STANDOFF_ARREST "Drunk driving suspect stopped on highway" = false.
Proof. vm_compute. repeat split. Qed.

(** * Location *)

(** C2 (as the code has it).  The location stays not_specified when the
    exclusion stage, the peripheral-specific override or the policy override
    returns before step 4.  Otherwise the tiers are tried in order: the
    window (title, a space, the first 500 characters of the body) against the
    Canadian gazetteer, the window against the national keywords, then the
    title alone against the international indicators.  Relevance, crime types
    and confidence play no other part. *)
Theorem location_tiering (title body : string) :
  location (classify_article title body) =
  if early_return title then "not_specified"
  else if match_any (combined_window title body) CANADIAN_LOCATIONS
       then "local_canada"
  else if match_any (combined_window title body) NATIONAL_KEYWORDS
       then "national_canada"
  else if match_any title INTERNATIONAL_INDICATORS then "international"
  else "not_specified".
Proof.
  open_classify. unfold early_return.
  destruct (excluded title); [reflexivity|].
  destruct (match_any title PERIPHERAL_SPECIFIC_PATTERNS); [reflexivity|].
  destruct (match_any title POLICY_PATTERNS && negb (re_search HARD_INCIDENT title));
    [reflexivity|].
  cbn [orb].
  destruct (peripheral_chain _ _ _ _ _) as [rel [cts conf]].
  fields. reflexivity.
Qed.

(** C2 as stated fails twice over.  Two inputs with the same window and the
    same relevance get different locations because the international tier
    reads the title only; and an excluded title keeps not_specified although
    its window names a Canadian place. *)
Lemma location_not_window_determined :
  (combined_window "News Gaza" "strike" = combined_window "News" "Gaza strike"
   /\ relevance (classify_article "News Gaza" "strike")
      = relevance (classify_article "News" "Gaza strike")
   /\ location (classify_article "News Gaza" "strike") = "international"
   /\ location (classify_article "News" "Gaza strike") = "not_specified")
  /\ (match_any (combined_window "Login" "Toronto") CANADIAN_LOCATIONS = true
      /\ location (classify_article "Login" "Toronto") = "not_specified").
Proof. vm_compute. repeat split. Qed.

(** * Duplicate crime types *)

(** C6, evaluated at a failing input: step 2 tags the assault as
    "violent_crime" and the impaired-driving branch appends "violent_crime"
    again for the crash. *)
Theorem duplicate_violent_crime :
  crime_types
    (classify_article "Impaired driver charged with assault after crash" "")
  = ["violent_crime"; "criminal_justice"; "violent_crime"]
  /\ ~ NoDup
       (crime_types
          (classify_article "Impaired driver charged with assault after crash" "")).
Proof.
  assert (E : crime_types
                (classify_article
                   "Impaired driver charged with assault after crash" "")
              = ["violent_crime"; "criminal_justice"; "violent_crime"])
    by (vm_compute; reflexivity).
  split; [exact E|].
  rewrite E. intros H. inversion H as [|? ? Hn _]; subst.
  apply Hn. right. left. reflexivity.
Qed.

(** * Blank titles *)

Lemma blank_blanks (s : string) :
  blank s = true -> Re.blanks (list_ascii_of_string s).
Proof. unfold blank, Re.blanks. intros H. now apply Forall_forall, forallb_forall. Qed.

Lemma re_search_blank (pattern text : string) :
  inked_pattern pattern = true -> blank text = true ->
  re_search pattern text = false.
Proof.
  unfold inked_pattern, re_search. intros Hi Hb.
  destruct (Re.compile pattern) as [r|]; [|reflexivity].
  apply ReFacts.search_from_inked; [exact Hi | now apply blank_blanks].
Qed.

Lemma existsb_blank (text : string) (patterns : list string) :
  forallb inked_pattern patterns = true -> blank text = true ->
  existsb (fun pattern => re_search pattern text) patterns = false.
Proof.
  intros Hi Hb. induction patterns as [|q l IH]; [reflexivity|].
  cbn [forallb existsb] in *. apply andb_true_iff in Hi. destruct Hi as [Hq Hl].
  now rewrite (re_search_blank q text Hq Hb), (IH Hl).
Qed.

Lemma match_any_blank (text : string) (patterns : list string) :
  forallb inked_pattern patterns = true -> blank text = true ->
  match_any text patterns = false.
Proof. intros. rewrite match_any_raw. now apply existsb_blank. Qed.

Lemma match_patterns_blank (text : string) (patterns : list (string * Q)) :
  forallb inked_pattern (map fst patterns) = true -> blank text = true ->
  match_patterns text patterns = (false, 0%Q).
Proof.
  intros Hi Hb. unfold match_patterns.
  assert (E : forall acc,
             fold_left
               (fun max_conf rule =>
                  if re_search (fst rule) (lower text)
                  then Qmax max_conf (snd rule) else max_conf) patterns acc
             = acc).
  { induction patterns as [|[q w] l IH]; intros acc; [reflexivity|].
    cbn [map forallb fst] in Hi. apply andb_true_iff in Hi. destruct Hi as [Hq Hl].
    cbn [fold_left fst snd].
    rewrite re_search_lower, (re_search_blank q text Hq Hb). now apply IH. }
  rewrite E. reflexivity.
Qed.

Lemma blank_app (a b : string) :
  blank a = true -> blank b = true -> blank (a ++ b) = true.
Proof.
  unfold blank. intros Ha Hb. induction a as [|c a IH]; [exact Hb|].
  cbn [append list_ascii_of_string forallb] in *.
  apply andb_true_iff in Ha. destruct Ha as [Hc Ha].
  now rewrite Hc, (IH Ha).
Qed.

Lemma blank_substring (n : nat) : forall s,
  blank s = true -> blank (substring 0 n s) = true.
Proof.
  unfold blank. induction n as [|n IH]; intros s Hs.
  - now destruct s.
  - destruct s as [|c s]; [reflexivity|].
    cbn [substring list_ascii_of_string forallb] in *.
    apply andb_true_iff in Hs. destruct Hs as [Hc Hs].
    now rewrite Hc, (IH s Hs).
Qed.

Lemma existsb_guarded (f g : string -> bool) (l : list string) :
  existsb f l = false -> existsb (fun x => f x && g x) l = false.
Proof.
  induction l as [|q l IH]; cbn [existsb]; [reflexivity|].
  intros E. apply orb_false_iff in E. destruct E as [Eq El].
  now rewrite Eq, (IH El).
Qed.

Lemma excluded_blank (title : string) : blank title = true -> excluded title = false.
Proof.
  intros Hb.
  assert (S1 : excluded_structural title = false)
    by (apply existsb_blank; [vm_compute; reflexivity | exact Hb]).
  assert (S2 : excluded_non_crime title = false)
    by (apply existsb_guarded, existsb_blank; [vm_compute; reflexivity | exact Hb]).
  assert (S3 : excluded_false_positive title = false).
  { unfold excluded_false_positive.
    rewrite !(re_search_blank _ title)
      by first [exact Hb | vm_compute; reflexivity].
    reflexivity. }
  unfold excluded. now rewrite S1, S2, S3.
Qed.

Lemma core_patterns_blank (title : string) :
  blank title = true -> core_patterns title = ([], 0%Q).
Proof.
  intros Hb. unfold core_patterns, tag, tag_justice. cbv zeta.
  rewrite !(match_patterns_blank title)
    by first [exact Hb | vm_compute; reflexivity].
  reflexivity.
Qed.

(** C8 (as the code has it).  A title that is empty or white space only is
    classified not_crime with no crime type and confidence 0 for every body.
    Its location is read off the window: local_canada or national_canada when
    the window matches the gazetteer or the national keywords, not_specified
    otherwise, and in particular when the body is blank too. *)
Theorem blank_title (title body : string) :
  blank title = true ->
  let c := classify_article title body in
  relevance c = "not_crime"
  /\ crime_types c = []
  /\ confidence c = 0%Q
  /\ location c =
     (if match_any (combined_window title body) CANADIAN_LOCATIONS
      then "local_canada"
      else if match_any (combined_window title body) NATIONAL_KEYWORDS
           then "national_canada"
           else "not_specified")
  /\ (blank body = true -> location c = "not_specified").
Proof.
  intros Hb c. subst c.
  assert (E : classify_article title body
              = mkClassification "not_crime" [] 0%Q
                  (determine_location (combined_window title body) false)).
  { open_classify. rewrite (excluded_blank title Hb).
    rewrite !(match_any_blank title)
      by first [exact Hb | vm_compute; reflexivity].
    cbn [andb]. rewrite (core_patterns_blank title Hb).
    unfold peripheral_chain. cbn [andb nonempty fst]. reflexivity. }
  rewrite E. fields. unfold determine_location.
  repeat (split; [reflexivity|]).
  intros Hbody.
  assert (Hw : blank (combined_window title body) = true).
  { unfold combined_window. apply blank_app; [exact Hb|].
    apply (blank_app " "); [reflexivity|]. now apply blank_substring. }
  rewrite !(match_any_blank (combined_window title body))
    by first [exact Hw | vm_compute; reflexivity].
  reflexivity.
Qed.

Lemma blank_title_witness :
  let c := classify_article "   " "Police in Toronto made an arrest" in
  relevance c = "not_crime"
  /\ crime_types c = []
  /\ confidence c = 0%Q
  /\ location c =
     (if match_any (combined_window "   " "Police in Toronto made an arrest")
           CANADIAN_LOCATIONS
      then "local_canada"
      else if match_any (combined_window "   " "Police in Toronto made an arrest")
                NATIONAL_KEYWORDS
           then "national_canada"
           else "not_specified")
  /\ (blank "Police in Toronto made an arrest" = true ->
      location c = "not_specified").
Proof.
  apply (blank_title "   " "Police in Toronto made an arrest").
  vm_compute. reflexivity.
Defined.

(** C8 as stated fails on the location: with an empty title the window is
    the body's prefix, and a Canadian place in it gives local_canada. *)
Lemma blank_title_located :
  blank "" = true
  /\ location (classify_article "" "Toronto") = "local_canada"
  /\ location (classify_article "" "Toronto") <> "not_specified".
Proof.
  assert (E : location (classify_article "" "Toronto") = "local_canada")
    by (vm_compute; reflexivity).
  split; [reflexivity|]. split; [exact E|]. rewrite E. discriminate.
Qed.

(** * Confidence as a maximum *)

Lemma Qmax_cases (x y : Q) :
  (Qmax x y = x /\ (y <= x)%Q) \/ (Qmax x y = y /\ (x < y)%Q).
Proof.
  unfold Qmax, GenericMinMax.gmax. destruct (x ?= y)%Q eqn:E.
  - left. split; [reflexivity|]. apply Qeq_alt in E. rewrite E. apply Qle_refl.
  - right. split; [reflexivity|]. now apply Qlt_alt.
  - left. split; [reflexivity|]. apply Qgt_alt in E. now apply Qlt_le_weak.
Qed.

Lemma Qmax_absorb (x y : Q) : Qmax (Qmax x y) y = Qmax x y.
Proof.
  destruct (Qmax_cases x y) as [[E L] | [E L]]; rewrite E.
  - exact E.
  - destruct (Qmax_cases y y) as [[E' _] | [_ L']]; [exact E'|].
    exfalso. exact (Qlt_irrefl y L').
Qed.

Lemma Qgtb_pos (a : Q) : Qgtb a 0%Q = true <-> (0 < a)%Q.
Proof.
  unfold Qgtb. rewrite negb_true_iff. split; intros H.
  - apply Qnot_le_lt. intros L. apply Qle_bool_iff in L. congruence.
  - destruct (Qle_bool a 0) eqn:E; [|reflexivity].
    apply Qle_bool_iff in E. exfalso. exact (Qlt_not_le _ _ H E).
Qed.

Lemma positive_weights_in (rules : list (string * Q)) (p : string) (w : Q) :
  positive_weights rules = true -> In (p, w) rules -> (0 < w)%Q.
Proof.
  unfold positive_weights. intros H Hin.
  apply Qgtb_pos. exact (proj1 (forallb_forall _ _) H (p, w) Hin).
Qed.

Section MaxWeight.
Variable text : string.

Lemma mw_nil : max_weight text [] 0%Q.
Proof.
  split; [intros p w []|]. right. split; [reflexivity | intros p w []].
Qed.

Lemma mw_single (p : string) (w : Q) :
  re_search p text = true -> max_weight text [(p, w)] w.
Proof.
  intros H. split.
  - intros q v [E|[]] _. inversion E; subst. apply Qle_refl.
  - left. exists p, w. repeat split; [now left | exact H].
Qed.

Lemma mw_join (r1 r2 : list (string * Q)) (a b : Q) :
  max_weight text r1 a -> max_weight text r2 b -> (0 < b)%Q ->
  max_weight text (r1 ++ r2) (Qmax a b).
Proof.
  intros [U1 A1] [U2 A2] Hb. split.
  - intros p w Hin Hm. apply in_app_iff in Hin. destruct Hin as [Hin|Hin].
    + eapply Qle_trans; [exact (U1 p w Hin Hm) | apply Q.le_max_l].
    + eapply Qle_trans; [exact (U2 p w Hin Hm) | apply Q.le_max_r].
  - left. destruct (Qmax_cases a b) as [[E L] | [E L]]; rewrite E.
    + destruct A1 as [(p & w & Hin & Hm & Ea) | [Ea _]].
      * exists p, w. repeat split; try assumption. apply in_app_iff; now left.
      * exfalso. subst a. exact (Qlt_not_le _ _ Hb L).
    + destruct A2 as [(p & w & Hin & Hm & Eb) | [Eb _]].
      * exists p, w. repeat split; try assumption. apply in_app_iff; now right.
      * exfalso. subst b. exact (Qlt_irrefl _ Hb).
Qed.

Lemma mw_skip (r1 r2 : list (string * Q)) (a : Q) :
  max_weight text r1 a ->
  (forall p w, In (p, w) r2 -> re_search p text = false) ->
  max_weight text (r1 ++ r2) a.
Proof.
  intros [U1 A1] Hno. split.
  - intros p w Hin Hm. apply in_app_iff in Hin. destruct Hin as [Hin|Hin].
    + exact (U1 p w Hin Hm).
    + rewrite (Hno p w Hin) in Hm. discriminate.
  - destruct A1 as [(p & w & Hin & Hm & Ea) | [Ea Hn]].
    + left. exists p, w. repeat split; try assumption. apply in_app_iff; now left.
    + right. split; [exact Ea|]. intros p w Hin.
      apply in_app_iff in Hin. destruct Hin as [Hin|Hin]; eauto.
Qed.

Lemma mw_equiv (r1 r2 : list (string * Q)) (a : Q) :
  (forall x, In x r1 <-> In x r2) -> max_weight text r1 a -> max_weight text r2 a.
Proof.
  intros Hio [U A]. split.
  - intros p w Hin. apply U. now apply Hio.
  - destruct A as [(p & w & Hin & Hm & Ea) | [Ea Hn]].
    + left. exists p, w. repeat split; try assumption. now apply Hio.
    + right. split; [exact Ea|]. intros p w Hin. apply (Hn p w). now apply Hio.
Qed.

(** A group whose maximum is not positive has no matching rule. *)
Lemma mw_none (rules : list (string * Q)) (c : Q) :
  positive_weights rules = true -> max_weight text rules c ->
  Qgtb c 0%Q = false ->
  forall p w, In (p, w) rules -> re_search p text = false.
Proof.
  intros Hpos [U _] Hc p w Hin.
  destruct (re_search p text) eqn:E; [|reflexivity].
  assert (Hc' : Qgtb c 0%Q = true).
  { apply Qgtb_pos. eapply Qlt_le_trans.
    - exact (positive_weights_in rules p w Hpos Hin).
    - exact (U p w Hin E). }
  congruence.
Qed.

Lemma scan_max (patterns : list (string * Q)) :
  positive_weights patterns = true ->
  forall rules0 acc,
    max_weight text rules0 acc ->
    max_weight text (rules0 ++ patterns) (scan text patterns acc).
Proof.
  induction patterns as [|[p w] l IH]; intros Hpos rules0 acc H0.
  - now rewrite app_nil_r.
  - unfold positive_weights in Hpos. cbn [forallb snd] in Hpos.
    apply andb_true_iff in Hpos. destruct Hpos as [Hw Hl].
    change (rules0 ++ (p, w) :: l) with (rules0 ++ [(p, w)] ++ l).
    rewrite app_assoc. unfold scan. cbn [fold_left fst snd].
    apply (IH Hl). destruct (re_search p text) eqn:E.
    + apply mw_join; [exact H0 | now apply mw_single | now apply Qgtb_pos].
    + apply mw_skip; [exact H0|].
      intros q v [Eq|[]]. now inversion Eq; subst.
Qed.
End MaxWeight.

Lemma mw_lower (text : string) (rules : list (string * Q)) (c : Q) :
  max_weight (lower text) rules c -> max_weight text rules c.
Proof.
  intros [U A]. split.
  - intros p w Hin Hm. apply (U p w Hin). now rewrite re_search_lower.
  - destruct A as [(p & w & Hin & Hm & Ea) | [Ea Hn]].
    + left. exists p, w. rewrite re_search_lower in Hm. now repeat split.
    + right. split; [exact Ea|]. intros p w Hin.
      rewrite <- re_search_lower. now apply (Hn p w).
Qed.

Lemma match_patterns_scan (text : string) (patterns : list (string * Q)) :
  match_patterns text patterns
  = (Qgtb (scan (lower text) patterns 0%Q) 0%Q, scan (lower text) patterns 0%Q).
Proof. reflexivity. Qed.

(** What [match_patterns] returns: the largest matching weight of the group,
    and whether it is positive. *)
Lemma match_patterns_max (text : string) (patterns : list (string * Q)) :
  positive_weights patterns = true ->
  max_weight text patterns (snd (match_patterns text patterns)).
Proof.
  intros Hpos. rewrite match_patterns_scan. fields.
  apply mw_lower.
  exact (scan_max (lower text) patterns Hpos [] 0%Q (mw_nil (lower text))).
Qed.

Lemma match_patterns_fst (text : string) (patterns : list (string * Q)) :
  fst (match_patterns text patterns)
  = Qgtb (snd (match_patterns text patterns)) 0%Q.
Proof. reflexivity. Qed.


Lemma tag_max (name : string) (G : list (string * Q)) (title : string)
  (st : tally) (rules0 : list (string * Q)) :
  positive_weights G = true ->
  max_weight title rules0 (snd st) ->
  max_weight title (rules0 ++ G) (snd (tag name G title st)).
Proof.
  intros Hpos H0. unfold tag.
  pose proof (match_patterns_max title G Hpos) as HG.
  pose proof (match_patterns_fst title G) as HF.
  destruct (match_patterns title G) as [matched conf]. cbn [fst snd] in HG, HF.
  subst matched. destruct (Qgtb conf 0) eqn:E; fields.
  - apply mw_join; [exact H0 | exact HG | now apply Qgtb_pos].
  - apply mw_skip; [exact H0|]. now apply (mw_none title G conf).
Qed.

Lemma substantive_max (title : string) :
  max_weight title (List.concat (map snd GROUPS)) (snd (substantive title)).
Proof.
  unfold substantive.
  eapply mw_equiv;
    [|apply tag_max; [vm_compute; reflexivity|];
      apply tag_max; [vm_compute; reflexivity|];
      apply tag_max; [vm_compute; reflexivity|];
      apply tag_max; [vm_compute; reflexivity|];
      apply tag_max; [vm_compute; reflexivity|];
      apply mw_nil].
  intros x. unfold GROUPS. cbn [List.concat map snd].
  rewrite !in_app_iff. cbn [In]. tauto.
Qed.

Lemma tag_justice_max (title : string) (st : tally) (rules0 : list (string * Q)) :
  max_weight title rules0 (snd st) ->
  max_weight title
    (rules0 ++ (if re_search ESCAPE_CUSTODY title || re_search STANDOFF_ARREST title
                then CRIMINAL_JUSTICE_PATTERNS else []))
    (snd (tag_justice title st)).
Proof.
  intros H0. unfold tag_justice.
  assert (Hpos : positive_weights CRIMINAL_JUSTICE_PATTERNS = true)
    by (vm_compute; reflexivity).
  pose proof (match_patterns_max title CRIMINAL_JUSTICE_PATTERNS Hpos) as HG.
  pose proof (match_patterns_fst title CRIMINAL_JUSTICE_PATTERNS) as HF.
  destruct (match_patterns title CRIMINAL_JUSTICE_PATTERNS) as [matched conf].
  cbn [fst snd] in HG, HF. subst matched. destruct (Qgtb conf 0) eqn:E.
  - assert (J : max_weight title (rules0 ++ CRIMINAL_JUSTICE_PATTERNS)
                  (Qmax (snd st) conf))
      by (apply mw_join; [exact H0 | exact HG | now apply Qgtb_pos]).
    destruct (re_search ESCAPE_CUSTODY title), (re_search STANDOFF_ARREST title);
      cbn [orb]; fields;
      match goal with
      | |- context [if ?c then _ else _] => destruct c
      end; fields; rewrite ?Qmax_absorb, ?app_nil_r; assumption.
  - apply mw_skip; [exact H0|]. intros p w Hin.
    destruct (re_search ESCAPE_CUSTODY title || re_search STANDOFF_ARREST title);
      [|destruct Hin].
    now apply (mw_none title CRIMINAL_JUSTICE_PATTERNS conf Hpos HG E p w).
Qed.

(** The confidence of step 2 is the largest weight among the counted rules
    that match the title. *)
Lemma core_patterns_max (title : string) :
  max_weight title (counted_rules title) (snd (core_patterns title)).
Proof.
  rewrite core_patterns_eq. unfold counted_rules.
  apply tag_justice_max, substantive_max.
Qed.

(** ** When step 2 finds no crime type *)

Lemma app_unit_not_nil {A : Type} (l : list A) (x : A) : l ++ [x] <> [].
Proof. destruct l; discriminate. Qed.

Lemma nonempty_app_unit {A : Type} (l : list A) (x : A) : nonempty (l ++ [x]) = true.
Proof. destruct l; reflexivity. Qed.

Lemma tag_empty (name : string) (G : list (string * Q)) (title : string) (st : tally) :
  fst (tag name G title st) = [] -> tag name G title st = st.
Proof.
  unfold tag. destruct (match_patterns title G) as [[] conf]; fields.
  - intros H. now apply app_unit_not_nil in H.
  - reflexivity.
Qed.

Lemma tag_grows (name : string) (G : list (string * Q)) (title : string) (st : tally) :
  fst (tag name G title st) = [] -> fst st = [].
Proof. intros H. now rewrite <- (tag_empty name G title st H). Qed.

Lemma substantive_empty (title : string) :
  fst (substantive title) = [] -> snd (substantive title) = 0%Q.
Proof.
  unfold substantive. intros H5.
  pose proof (tag_grows _ _ _ _ H5) as H4.
  pose proof (tag_grows _ _ _ _ H4) as H3.
  pose proof (tag_grows _ _ _ _ H3) as H2.
  pose proof (tag_grows _ _ _ _ H2) as H1.
  rewrite (tag_empty _ _ _ _ H5), (tag_empty _ _ _ _ H4), (tag_empty _ _ _ _ H3),
    (tag_empty _ _ _ _ H2), (tag_empty _ _ _ _ H1).
  reflexivity.
Qed.

(** Every title with a standoff followed by an arrest names a standoff. *)
Lemma standoff_arrest_standalone (title : string) :
  re_search STANDOFF_ARREST title = true ->
  re_search STANDALONE_INCIDENT title = true.
Proof.
  unfold re_search.
  let c := eval vm_compute in (Re.compile STANDOFF_ARREST) in
    change (Re.compile STANDOFF_ARREST) with c.
  let c := eval vm_compute in (Re.compile STANDALONE_INCIDENT) in
    change (Re.compile STANDALONE_INCIDENT) with c.
  apply ReFacts.search_below.
  intros p H. apply ReFacts.m_group_left.
  revert p H. repeat apply ReFacts.seq_below.
  intros q _. reflexivity.
Qed.

Lemma tag_justice_empty (title : string) (st : tally) :
  fst (tag_justice title st) = [] -> fst st = [] /\ snd (tag_justice title st) = snd st.
Proof.
  unfold tag_justice.
  destruct (match_patterns title CRIMINAL_JUSTICE_PATTERNS) as [[] conf];
    [|now split].
  destruct (re_search ESCAPE_CUSTODY title).
  - rewrite (surjective_pairing
               (if re_search STANDOFF_ARREST title then _ else _)) at 1.
    destruct (re_search STANDOFF_ARREST title); fields;
      rewrite nonempty_app_unit; cbn [orb]; fields;
      intros H; now apply app_unit_not_nil in H.
  - destruct (re_search STANDOFF_ARREST title) eqn:S.
    + rewrite (standoff_arrest_standalone title S), orb_true_r. fields.
      intros H. now apply app_unit_not_nil in H.
    + destruct (nonempty (fst st) || re_search STANDALONE_INCIDENT title); fields.
      * intros H. now apply app_unit_not_nil in H.
      * now split.
Qed.

Lemma core_patterns_empty (title : string) :
  fst (core_patterns title) = [] -> snd (core_patterns title) = 0%Q.
Proof.
  rewrite core_patterns_eq. intros H.
  apply tag_justice_empty in H. destruct H as [H5 E].
  rewrite E. now apply substantive_empty.
Qed.




(** * Escapes from custody *)




(** * Where duplicates can arise *)

Lemma NoDup_map_filter {A B : Type} (f : A -> B) (g : A -> bool) (l : list A) :
  NoDup (map f l) -> NoDup (map f (filter g l)).
Proof.
  induction l as [|x l IH]; cbn [map filter]; intros H; [constructor|].
  inversion H as [|? ? Hx Hl]; subst.
  destruct (g x); cbn [map]; [|now apply IH].
  constructor; [|now apply IH].
  intros Hin. apply Hx. apply in_map_iff in Hin. destruct Hin as (y & Ey & Hy).
  apply filter_In in Hy. apply in_map_iff. exists y. tauto.
Qed.

Lemma substantive_nodup (title : string) : NoDup (fst (substantive title)).
Proof.
  rewrite substantive_types. apply NoDup_map_filter.
  cbn [map fst GROUPS].
  repeat (constructor; [cbn [In]; intros H;
                        repeat (destruct H as [H|H]; [discriminate|]); exact H|]).
  constructor.
Qed.

(** The modifier leaves the substantive types in place and adds, after them,
    nothing, "criminal_justice", or "other_crime" and "criminal_justice". *)
Lemma tag_justice_types (title : string) (st : tally) :
  exists ext, fst (tag_justice title st) = fst st ++ ext
              /\ (ext = [] \/ ext = ["criminal_justice"]
                  \/ ext = ["other_crime"; "criminal_justice"]).
Proof.
  unfold tag_justice.
  destruct (match_patterns title CRIMINAL_JUSTICE_PATTERNS) as [[] conf].
  2: { exists []. rewrite app_nil_r. tauto. }
  destruct (re_search ESCAPE_CUSTODY title).
  - exists ["other_crime"; "criminal_justice"]. split; [|tauto].
    destruct (re_search STANDOFF_ARREST title); fields;
      rewrite nonempty_app_unit; cbn [orb]; fields; now rewrite <- app_assoc.
  - assert (E : fst (if re_search STANDOFF_ARREST title
                     then (fst st, Qmax (snd st) conf) else st) = fst st)
      by (destruct (re_search STANDOFF_ARREST title); reflexivity).
    destruct (nonempty _ || _); fields.
    + exists ["criminal_justice"]. rewrite E. tauto.
    + exists []. rewrite E, app_nil_r. tauto.
Qed.

Lemma core_patterns_nodup (title : string) : NoDup (fst (core_patterns title)).
Proof.
  rewrite core_patterns_eq.
  destruct (tag_justice_types title (substantive title)) as (ext & E & Hext).
  rewrite E. apply NoDup_app.
  - apply substantive_nodup.
  - destruct Hext as [H | [H | H]]; subst ext;
      repeat (constructor; [cbn [In]; intros H;
                            repeat (destruct H as [H|H]; [discriminate|]); exact H|]);
      constructor.
  - intros x Hx Hin. apply substantive_names in Hx. cbn [map fst GROUPS In] in Hx.
    destruct Hext as [H | [H | H]]; subst ext; cbn [In] in Hin;
      repeat (destruct Hin as [Hin|Hin];
              [subst x; repeat (destruct Hx as [Hx|Hx]; [discriminate|]);
               exact Hx|]);
      exact Hin.
Qed.

(** X21.  The returned crime types repeat a name only on the path of C6: the
    impaired-driving branch with a collision cue, taken when step 2 had
    already found "violent_crime". *)
Lemma crime_types_nodup_elsewhere (title body : string) :
  NoDup (crime_types (classify_article title body))
  \/ (match_any title IMPAIRED_DRIVING_PATTERNS = true
      /\ re_search COLLISION_CUE title = true
      /\ In "violent_crime" (fst (core_patterns title))).
Proof.
  pose proof (core_patterns_nodup title) as Hc.
  open_classify.
  destruct (excluded title); [left; constructor|].
  destruct (match_any title PERIPHERAL_SPECIFIC_PATTERNS).
  { left. fields. unfold peripheral_types.
    destruct (re_search THEFT_CUE title); [|destruct (re_search VIOLENCE_CUE title)];
      repeat (constructor; [cbn [In]; intros H;
                            repeat (destruct H as [H|H]; [discriminate|]); exact H|]);
      constructor. }
  destruct (match_any title POLICY_PATTERNS && negb (re_search HARD_INCIDENT title)).
  { left. fields. destruct (nonempty _); [exact Hc | constructor]. }
  unfold peripheral_chain.
  destruct (match_any title IMPAIRED_DRIVING_PATTERNS).
  - destruct (re_search COLLISION_CUE title); fields.
    + destruct (in_dec string_dec "violent_crime" (fst (core_patterns title)))
        as [Hin|Hout]; [right; now repeat split|].
      left. apply NoDup_app; [exact Hc | repeat constructor; intros [] |].
      intros x Hx [E|[]]. subst x. contradiction.
    + left. repeat constructor. intros [].
  - left.
    destruct (match_any title INTERNATIONAL_INDICATORS
              && nonempty (fst (core_patterns title)));
      [|destruct (match_any title POLICY_PATTERNS);
        [|destruct (nonempty (fst (core_patterns title)))]];
      fields; try exact Hc.
    all: destruct (core_patterns title); exact Hc.
Qed.


(** * Further properties of [classify_article] *)

(** Every pattern of the tables and of the inline checks is well formed, so
    no search falls back on the failed-compilation case. *)
Lemma tables_compile :
  forallb (fun pattern => match Re.compile pattern with
                          | Some _ => true
                          | None => false
                          end) ALL_PATTERNS = true.
Proof. vm_compute. reflexivity. Qed.

Lemma counted_rules_all (title : string) (x : string * Q) :
  In x (counted_rules title) -> In x ALL_RULES.
Proof.
  unfold counted_rules, ALL_RULES. rewrite !in_app_iff.
  destruct (re_search ESCAPE_CUSTODY title || re_search STANDOFF_ARREST title);
    cbn [In]; tauto.
Qed.

Lemma core_confidence_bounds (title : string) :
  (0 <= snd (core_patterns title))%Q /\ (snd (core_patterns title) <= 0.95)%Q.
Proof.
  destruct (core_patterns_max title) as [_ [(p & w & Hin & _ & E) | [E _]]].
  - rewrite E. apply counted_rules_all in Hin.
    assert (W : weights_within ALL_RULES = true) by (vm_compute; reflexivity).
    pose proof (proj1 (forallb_forall _ _) W (p, w) Hin) as Hw.
    cbn [snd] in Hw. apply andb_true_iff in Hw.
    destruct Hw as [H0 H1]. split; now apply Qle_bool_iff.
  - rewrite E. split; discriminate.
Qed.

(** X1.  Whatever the input, the confidence lies between 0 and 0.95, the
    largest weight of the tables. *)
Theorem confidence_bounds (title body : string) :
  (0 <= confidence (classify_article title body))%Q
  /\ (confidence (classify_article title body) <= 0.95)%Q.
Proof.
  destruct (core_confidence_bounds title) as [Lo Hi].
  open_classify.
  destruct (excluded title); [split; discriminate|].
  destruct (match_any title PERIPHERAL_SPECIFIC_PATTERNS); [split; discriminate|].
  destruct (match_any title POLICY_PATTERNS && negb (re_search HARD_INCIDENT title));
    [split; discriminate|].
  unfold peripheral_chain.
  destruct (match_any title IMPAIRED_DRIVING_PATTERNS).
  - destruct (re_search COLLISION_CUE title); fields; [|split; discriminate].
    split.
    + eapply Qle_trans; [|apply Q.le_max_r]. discriminate.
    + apply Q.max_lub; [exact Hi | discriminate].
  - destruct (match_any title INTERNATIONAL_INDICATORS
              && nonempty (fst (core_patterns title))); fields.
    + split.
      * apply Q.min_glb; [exact Lo | discriminate].
      * eapply Qle_trans; [apply Q.le_min_l | exact Hi].
    + destruct (match_any title POLICY_PATTERNS); fields; [split; discriminate|].
      destruct (nonempty (fst (core_patterns title)));
        destruct (core_patterns title); fields; now split.
Qed.

Lemma core_patterns_names (title name : string) :
  In name (fst (core_patterns title)) -> In name CRIME_TYPE_NAMES.
Proof.
  rewrite core_patterns_eq.
  destruct (tag_justice_types title (substantive title)) as (ext & E & Hext).
  rewrite E. unfold CRIME_TYPE_NAMES. rewrite !in_app_iff. intros [H|H].
  - left. now apply (substantive_names title).
  - right. destruct Hext as [X | [X | X]]; subst ext; cbn [In] in *; tauto.
Qed.

(** X2.  The result only carries labels of the fixed vocabularies: one of
    three relevance labels, one of four location labels, and crime types
    among the five group names, "other_crime" and "criminal_justice". *)
Theorem result_labels (title body : string) :
  In (relevance (classify_article title body)) RELEVANCE_LABELS
  /\ In (location (classify_article title body)) LOCATION_LABELS
  /\ (forall name, In name (crime_types (classify_article title body)) ->
                   In name CRIME_TYPE_NAMES).
Proof.
  pose proof (core_patterns_names title) as Hn.
  assert (Hloc : forall w i, In (determine_location w i) LOCATION_LABELS).
  { intros w i. unfold determine_location, LOCATION_LABELS.
    destruct (match_any w CANADIAN_LOCATIONS); [cbn [In]; tauto|].
    destruct (match_any w NATIONAL_KEYWORDS); [cbn [In]; tauto|].
    destruct i; cbn [In]; tauto. }
  open_classify.
  destruct (excluded title).
  { fields.
    split; [cbn [In RELEVANCE_LABELS]; tauto|].
    split; [cbn [In LOCATION_LABELS]; tauto|].
    intros name []. }
  destruct (match_any title PERIPHERAL_SPECIFIC_PATTERNS).
  { fields.
    split; [cbn [In RELEVANCE_LABELS]; tauto|].
    split; [cbn [In LOCATION_LABELS]; tauto|].
    intros name. unfold peripheral_types, CRIME_TYPE_NAMES.
    destruct (re_search THEFT_CUE title); [|destruct (re_search VIOLENCE_CUE title)];
      cbn [In map fst GROUPS app]; intuition. }
  destruct (match_any title POLICY_PATTERNS && negb (re_search HARD_INCIDENT title)).
  { fields.
    split; [cbn [In RELEVANCE_LABELS]; tauto|].
    split; [cbn [In LOCATION_LABELS]; tauto|].
    intros name. destruct (nonempty (fst (core_patterns title)));
      [apply Hn | intros []]. }
  unfold peripheral_chain.
  destruct (match_any title IMPAIRED_DRIVING_PATTERNS).
  - destruct (re_search COLLISION_CUE title); fields;
      (split; [cbn [In RELEVANCE_LABELS]; tauto|]); (split; [apply Hloc|]);
      intros name Hin.
    + apply in_app_iff in Hin. destruct Hin as [Hin|Hin]; [now apply Hn|].
      unfold CRIME_TYPE_NAMES. cbn [In map fst GROUPS app] in *. tauto.
    + unfold CRIME_TYPE_NAMES. cbn [In map fst GROUPS app] in *. tauto.
  - destruct (match_any title INTERNATIONAL_INDICATORS
              && nonempty (fst (core_patterns title)));
      [|destruct (match_any title POLICY_PATTERNS);
        [|destruct (nonempty (fst (core_patterns title)))]];
      try (destruct (core_patterns title) as [cts conf] eqn:Ecp; cbn [fst] in Hn);
      fields;
      (split; [cbn [In RELEVANCE_LABELS]; tauto|]); (split; [apply Hloc|]);
      exact Hn.
Qed.

(** X3.  A result labelled not_crime carries no crime type and confidence 0. *)
Theorem not_crime_is_empty (title body : string) :
  relevance (classify_article title body) = "not_crime" ->
  crime_types (classify_article title body) = []
  /\ confidence (classify_article title body) = 0%Q.
Proof.
  open_classify.
  destruct (excluded title); [now split|].
  destruct (match_any title PERIPHERAL_SPECIFIC_PATTERNS); [discriminate|].
  destruct (match_any title POLICY_PATTERNS && negb (re_search HARD_INCIDENT title));
    [discriminate|].
  unfold peripheral_chain.
  destruct (match_any title IMPAIRED_DRIVING_PATTERNS);
    [destruct (re_search COLLISION_CUE title); discriminate|].
  destruct (match_any title INTERNATIONAL_INDICATORS
            && nonempty (fst (core_patterns title))); [discriminate|].
  destruct (match_any title POLICY_PATTERNS); [discriminate|].
  pose proof (core_patterns_empty title) as H0.
  destruct (core_patterns title) as [cts conf]. cbn [fst snd] in *.
  destruct cts; cbn [nonempty]; fields; [|discriminate].
  intros _. split; [reflexivity | now apply H0].
Qed.

Lemma not_crime_is_empty_witness :
  crime_types (classify_article "Council approves new library" "Toronto") = []
  /\ confidence (classify_article "Council approves new library" "Toronto") = 0%Q.
Proof.
  apply (not_crime_is_empty "Council approves new library" "Toronto").
  vm_compute. reflexivity.
Defined.

(** X4.  A result labelled core_street_crime names at least one crime type. *)
Theorem core_has_crime_type (title body : string) :
  relevance (classify_article title body) = "core_street_crime" ->
  crime_types (classify_article title body) <> [].
Proof.
  open_classify.
  destruct (excluded title); [discriminate|].
  destruct (match_any title PERIPHERAL_SPECIFIC_PATTERNS); [discriminate|].
  destruct (match_any title POLICY_PATTERNS && negb (re_search HARD_INCIDENT title));
    [discriminate|].
  unfold peripheral_chain.
  destruct (match_any title IMPAIRED_DRIVING_PATTERNS).
  { destruct (re_search COLLISION_CUE title); [|discriminate].
    fields. intros _. apply app_unit_not_nil. }
  destruct (match_any title INTERNATIONAL_INDICATORS
            && nonempty (fst (core_patterns title))); [discriminate|].
  destruct (match_any title POLICY_PATTERNS); [discriminate|].
  destruct (nonempty (fst (core_patterns title))) eqn:N;
    destruct (core_patterns title) as [cts conf]; cbn [fst snd] in *;
    [|discriminate].
  intros _. destruct cts; [discriminate N | discriminate].
Qed.

Lemma core_has_crime_type_witness :
  crime_types (classify_article "Man charged with murder after downtown stabbing" "")
  <> [].
Proof.
  apply (core_has_crime_type "Man charged with murder after downtown stabbing" "").
  vm_compute. reflexivity.
Defined.

(** X5.  A result labelled peripheral_crime never has a confidence above
    0.70. *)
Theorem peripheral_confidence_cap (title body : string) :
  relevance (classify_article title body) = "peripheral_crime" ->
  (confidence (classify_article title body) <= 0.70)%Q.
Proof.
  open_classify.
  destruct (excluded title); [discriminate|].
  destruct (match_any title PERIPHERAL_SPECIFIC_PATTERNS); [discriminate|].
  destruct (match_any title POLICY_PATTERNS && negb (re_search HARD_INCIDENT title));
    [discriminate|].
  unfold peripheral_chain.
  destruct (match_any title IMPAIRED_DRIVING_PATTERNS);
    [destruct (re_search COLLISION_CUE title); discriminate|].
  destruct (match_any title INTERNATIONAL_INDICATORS
            && nonempty (fst (core_patterns title))).
  { fields. intros _. eapply Qle_trans; [apply Q.le_min_r | discriminate]. }
  destruct (match_any title POLICY_PATTERNS); [discriminate|].
  destruct (nonempty (fst (core_patterns title)));
    destruct (core_patterns title); discriminate.
Qed.

Lemma peripheral_confidence_cap_witness :
  (confidence (classify_article "Mexico cartel boss arrested" "") <= 0.70)%Q.
Proof.
  apply (peripheral_confidence_cap "Mexico cartel boss arrested" "").
  vm_compute. reflexivity.
Defined.

(** X6.  Without impaired-driving wording, a title with policy wording or an
    international indicator is never labelled core_street_crime. *)
Theorem framing_never_core (title body : string) :
  match_any title IMPAIRED_DRIVING_PATTERNS = false ->
  match_any title POLICY_PATTERNS = true
  \/ match_any title INTERNATIONAL_INDICATORS = true ->
  relevance (classify_article title body) <> "core_street_crime".
Proof.
  intros Himp H. open_classify.
  destruct (excluded title); [discriminate|].
  destruct (match_any title PERIPHERAL_SPECIFIC_PATTERNS); [discriminate|].
  destruct (match_any title POLICY_PATTERNS) eqn:P.
  - destruct (negb (re_search HARD_INCIDENT title)); cbn [andb]; [discriminate|].
    unfold peripheral_chain. rewrite Himp.
    destruct (match_any title INTERNATIONAL_INDICATORS
              && nonempty (fst (core_patterns title)));
      fields; discriminate.
  - destruct H as [H|H]; [discriminate|]. cbn [andb].
    unfold peripheral_chain. rewrite Himp, H. cbn [andb].
    destruct (nonempty (fst (core_patterns title)));
      destruct (core_patterns title); fields; discriminate.
Qed.

Lemma framing_never_core_witness :
  relevance (classify_article "Minneapolis police investigate downtown shooting" "")
  <> "core_street_crime".
Proof.
  apply (framing_never_core "Minneapolis police investigate downtown shooting" "").
  - vm_compute. reflexivity.
  - right. vm_compute. reflexivity.
Defined.

(** X14.  After the exclusions, a title with policy wording and no
    impaired-driving wording is labelled peripheral_crime, with a confidence
    of at most 0.65, whatever crime patterns it matches. *)
Theorem policy_is_peripheral (title body : string) :
  excluded title = false ->
  match_any title IMPAIRED_DRIVING_PATTERNS = false ->
  match_any title POLICY_PATTERNS = true ->
  relevance (classify_article title body) = "peripheral_crime"
  /\ (confidence (classify_article title body) <= 0.65)%Q.
Proof.
  intros Hex Himp Hpol. open_classify. rewrite Hex, Hpol.
  destruct (match_any title PERIPHERAL_SPECIFIC_PATTERNS);
    [split; [reflexivity | discriminate]|].
  destruct (negb (re_search HARD_INCIDENT title)); cbn [andb];
    [split; [reflexivity | discriminate]|].
  unfold peripheral_chain. rewrite Himp.
  destruct (match_any title INTERNATIONAL_INDICATORS
            && nonempty (fst (core_patterns title)));
    fields; (split; [reflexivity|]); [apply Q.le_min_r | discriminate].
Qed.

Lemma policy_is_peripheral_witness :
  relevance (classify_article "Mayor vows crackdown on crime after murder" "")
  = "peripheral_crime"
  /\ (confidence (classify_article "Mayor vows crackdown on crime after murder" "")
      <= 0.65)%Q.
Proof.
  apply (policy_is_peripheral "Mayor vows crackdown on crime after murder" "");
    vm_compute; reflexivity.
Defined.

(** * Case *)

Lemma lower_idem (s : string) : lower (lower s) = lower s.
Proof.
  induction s as [|c s IH]; cbn [lower]; [reflexivity|].
  now rewrite ReFacts.lower_ascii_idem, IH.
Qed.




Section CaseBlind.
Variables t1 t2 : string.
Hypothesis Ht : lower t1 = lower t2.









End CaseBlind.




(** * The two matchers *)




(** ** The order of the rules *)

Lemma scan_compat (text : string) (l : list (string * Q)) : forall a a',
  (a == a')%Q -> (scan text l a == scan text l a')%Q.
Proof.
  induction l as [|[p w] l IH]; intros a a' E; [exact E|].
  unfold scan. cbn [fold_left fst snd]. apply IH.
  destruct (re_search p text); [now rewrite E | exact E].
Qed.

Lemma scan_perm (text : string) (l l' : list (string * Q)) :
  Permutation l l' -> forall a, (scan text l a == scan text l' a)%Q.
Proof.
  induction 1 as [|x l l' _ IH|x y l|l l' l'' _ IH1 _ IH2]; intros a.
  - reflexivity.
  - apply IH.
  - unfold scan. cbn [fold_left]. apply scan_compat.
    destruct (re_search (fst x) text), (re_search (fst y) text); try reflexivity.
    rewrite <- !Q.max_assoc. now rewrite (Q.max_comm (snd y)).
  - now rewrite IH1.
Qed.

Lemma Qgtb_compat (a a' : Q) : (a == a')%Q -> Qgtb a 0%Q = Qgtb a' 0%Q.
Proof.
  intros E. unfold Qgtb. f_equal. apply eq_true_iff_eq.
  rewrite !Qle_bool_iff. now rewrite E.
Qed.

(** X10.  The order of the rules in a table does not matter: a reordered
    table gives the same match flag and a confidence of the same value. *)
Theorem rule_order_irrelevant (text : string) (l1 l2 : list (string * Q)) :
  Permutation l1 l2 ->
  fst (match_patterns text l1) = fst (match_patterns text l2)
  /\ (snd (match_patterns text l1) == snd (match_patterns text l2))%Q.
Proof.
  intros H. rewrite !match_patterns_scan. fields.
  pose proof (scan_perm (lower text) l1 l2 H 0%Q) as E.
  split; [now apply Qgtb_compat | exact E].
Qed.

Lemma rule_order_irrelevant_witness :
  fst (match_patterns "Turf war ends in gang shooting" GANG_PATTERNS)
  = fst (match_patterns "Turf war ends in gang shooting" (rev GANG_PATTERNS))
  /\ (snd (match_patterns "Turf war ends in gang shooting" GANG_PATTERNS)
      == snd (match_patterns "Turf war ends in gang shooting" (rev GANG_PATTERNS)))%Q.
Proof.
  apply (rule_order_irrelevant "Turf war ends in gang shooting").
  simpl. apply perm_swap.
Defined.

(** * More on the crime types *)

Lemma tag_justice_other (title : string) (st : tally) :
  ~ In "other_crime" (fst st) ->
  In "other_crime" (fst (tag_justice title st)) ->
  re_search ESCAPE_CUSTODY title = true
  /\ In "criminal_justice" (fst (tag_justice title st)).
Proof.
  intros Hout. unfold tag_justice.
  destruct (match_patterns title CRIMINAL_JUSTICE_PATTERNS) as [[] conf];
    [|contradiction].
  destruct (re_search ESCAPE_CUSTODY title).
  - intros _. split; [reflexivity|].
    destruct (re_search STANDOFF_ARREST title); fields;
      rewrite nonempty_app_unit; cbn [orb]; fields;
      apply in_app_iff; right; now left.
  - assert (E : fst (if re_search STANDOFF_ARREST title
                     then (fst st, Qmax (snd st) conf) else st) = fst st)
      by (destruct (re_search STANDOFF_ARREST title); reflexivity).
    destruct (nonempty _ || _); fields; rewrite E; intros H.
    + apply in_app_iff in H. destruct H as [H|[H|[]]];
        [contradiction | discriminate].
    + contradiction.
Qed.

Lemma core_patterns_other (title : string) :
  In "other_crime" (fst (core_patterns title)) ->
  re_search ESCAPE_CUSTODY title = true
  /\ In "criminal_justice" (fst (core_patterns title)).
Proof.
  rewrite core_patterns_eq. apply tag_justice_other.
  intros H. apply substantive_names in H. cbn [map fst GROUPS In] in H.
  repeat (destruct H as [H|H]; [discriminate|]). exact H.
Qed.

(** X11.  "other_crime" is only returned for a title that matches the
    escape-from-custody pattern, and never without "criminal_justice". *)
Theorem other_crime_needs_escape (title body : string) :
  In "other_crime" (crime_types (classify_article title body)) ->
  re_search ESCAPE_CUSTODY title = true
  /\ In "criminal_justice" (crime_types (classify_article title body)).
Proof.
  pose proof (core_patterns_other title) as Hc.
  open_classify.
  destruct (excluded title); [intros []|].
  destruct (match_any title PERIPHERAL_SPECIFIC_PATTERNS).
  { fields. unfold peripheral_types.
    destruct (re_search THEFT_CUE title); [|destruct (re_search VIOLENCE_CUE title)];
      cbn [In]; intros H;
      repeat (destruct H as [H|H]; [discriminate|]); contradiction. }
  destruct (match_any title POLICY_PATTERNS && negb (re_search HARD_INCIDENT title)).
  { fields. destruct (nonempty (fst (core_patterns title))); [exact Hc | intros []]. }
  unfold peripheral_chain.
  destruct (match_any title IMPAIRED_DRIVING_PATTERNS).
  - destruct (re_search COLLISION_CUE title); fields; intros H.
    + apply in_app_iff in H. destruct H as [H|[H|[]]]; [|discriminate].
      destruct (Hc H) as [He Hj]. split; [exact He|].
      apply in_app_iff. now left.
    + destruct H as [H|[]]. discriminate.
  - destruct (match_any title INTERNATIONAL_INDICATORS
              && nonempty (fst (core_patterns title)));
      [|destruct (match_any title POLICY_PATTERNS);
        [|destruct (nonempty (fst (core_patterns title)))]];
      try (destruct (core_patterns title) as [cts conf]; cbn [fst] in Hc);
      fields; exact Hc.
Qed.

Lemma other_crime_needs_escape_witness :
  re_search ESCAPE_CUSTODY "Inmate escapes from jail" = true
  /\ In "criminal_justice"
       (crime_types (classify_article "Inmate escapes from jail" "")).
Proof.
  apply (other_crime_needs_escape "Inmate escapes from jail" "").
  vm_compute. tauto.
Defined.

(** * The conditional exclusion and the early overrides *)

Lemma existsb_off {A : Type} (f : A -> bool) (l : list A) :
  existsb (fun x => f x && negb true) l = false.
Proof.
  induction l as [|x l IH]; cbn [existsb negb]; [reflexivity|].
  now rewrite andb_false_r.
Qed.

(** X12.  A title that matches a non-crime pattern is excluded, with the
    default result, when it holds no strong crime keyword; a strong crime
    keyword switches this check off. *)
Theorem non_crime_exclusion (title body : string) :
  (exists pattern, In pattern NON_CRIME_TITLE_PATTERNS
                   /\ re_search pattern title = true) ->
  if re_search STRONG_CRIME_KEYWORDS title
  then excluded_non_crime title = false
  else classify_article title body
       = mkClassification "not_crime" [] 0%Q "not_specified".
Proof.
  intros (q & Hin & Hq).
  destruct (re_search STRONG_CRIME_KEYWORDS title) eqn:S.
  - unfold excluded_non_crime. rewrite S. apply existsb_off.
  - assert (N : excluded_non_crime title = true).
    { unfold excluded_non_crime. apply existsb_exists. exists q.
      split; [exact Hin|]. now rewrite Hq, S. }
    open_classify. unfold excluded. rewrite N, orb_true_r. reflexivity.
Qed.

Lemma non_crime_exclusion_witness :
  classify_article "Police chief retires after 30 years" "Sudbury"
  = mkClassification "not_crime" [] 0%Q "not_specified".
Proof.
  apply (non_crime_exclusion "Police chief retires after 30 years" "Sudbury").
  exists "(retirement|retires|retiring)". split.
  - simpl. auto.
  - vm_compute. reflexivity.
Defined.

(** X13.  After the exclusions the two early overrides come before the
    impaired-driving and international branches.  The peripheral-specific
    one gives peripheral_crime at 0.60 with the crime types its cue selects;
    failing that, policy wording without a hard-incident keyword gives
    peripheral_crime at 0.50 with the crime types of step 2.  Neither
    computes a location. *)
Theorem early_overrides (title body : string) :
  excluded title = false ->
  match_any title PERIPHERAL_SPECIFIC_PATTERNS = true
  \/ (match_any title POLICY_PATTERNS = true
      /\ re_search HARD_INCIDENT title = false) ->
  classify_article title body =
  if match_any title PERIPHERAL_SPECIFIC_PATTERNS
  then mkClassification "peripheral_crime"
         (if re_search THEFT_CUE title
          then ["property_crime"; "criminal_justice"]
          else if re_search VIOLENCE_CUE title
               then ["violent_crime"; "criminal_justice"]
               else ["criminal_justice"])
         0.60%Q "not_specified"
  else mkClassification "peripheral_crime" (fst (core_patterns title))
         0.50%Q "not_specified".
Proof.
  intros Hex H. open_classify. rewrite Hex.
  destruct (match_any title PERIPHERAL_SPECIFIC_PATTERNS); [reflexivity|].
  destruct H as [H | [Hpol Hhard]]; [discriminate|].
  rewrite Hpol, Hhard. cbn [andb negb].
  now destruct (fst (core_patterns title)).
Qed.

Lemma early_overrides_witness :
  classify_article "Stolen mezuzah returned to synagogue after theft" ""
  = mkClassification "peripheral_crime" ["property_crime"; "criminal_justice"]
      0.60%Q "not_specified".
Proof.
  apply (early_overrides "Stolen mezuzah returned to synagogue after theft" "").
  - vm_compute. reflexivity.
  - left. vm_compute. reflexivity.
Defined.

(** * The window *)

Lemma length_append (a b : string) :
  String.length (a ++ b) = String.length a + String.length b.
Proof. induction a as [|c a IH]; cbn [append String.length]; [reflexivity | now rewrite IH]. Qed.

Lemma length_prefix (n : nat) : forall s, String.length (substring 0 n s) <= n.
Proof.
  induction n as [|n IH]; intros s; destruct s as [|c s];
    cbn [substring String.length]; try lia.
  specialize (IH s). lia.
Qed.

Lemma prefix_short (n : nat) : forall s, String.length s <= n -> substring 0 n s = s.
Proof.
  induction n as [|n IH]; intros s; destruct s as [|c s];
    cbn [substring String.length]; intros H; try reflexivity; try lia.
  rewrite IH; [reflexivity | lia].
Qed.

(** X15.  The text scanned for the location is bounded: the window is never
    longer than the title plus 501 characters, however long the body. *)
Theorem window_bounded (title body : string) :
  String.length (combined_window title body) <= String.length title + 501.
Proof.
  unfold combined_window. rewrite !length_append.
  pose proof (length_prefix 500 body). cbn [String.length]. lia.
Qed.

(** X16.  A body of at most 500 characters enters the window whole. *)
Theorem window_short_body (title body : string) :
  String.length body <= 500 ->
  combined_window title body = (title ++ " " ++ body)%string.
Proof.
  intros H. unfold combined_window. now rewrite prefix_short.
Qed.

Lemma window_short_body_witness :
  combined_window "Fire" "Toronto" = ("Fire" ++ " " ++ "Toronto")%string.
Proof.
  apply (window_short_body "Fire" "Toronto"). vm_compute.
  repeat constructor.
Defined.

(** * The confusion analysis of [main] *)

Lemma confusion_step_consistent (c : Confusion) (r : Row) (n : nat) :
  consistent c n -> consistent (confusion_step c r) (S n).
Proof.
  unfold consistent, confusion_step. cbv zeta. intros (H1 & H2 & H3).
  destruct (has_current_crime r), (has_new_crime r);
    cbn [andb negb bump current_has_crime new_has_crime both_crime current_only
         new_only]; lia.
Qed.

Lemma fold_consistent (results : list Row) : forall c n,
  consistent c n ->
  consistent (fold_left confusion_step results c) (n + List.length results).
Proof.
  induction results as [|r l IH]; intros c n H; cbn [fold_left List.length].
  - now rewrite Nat.add_0_r.
  - replace (n + S (List.length l)) with (S n + List.length l) by lia.
    apply IH. now apply confusion_step_consistent.
Qed.

(** X17.  The counters of the confusion analysis add up: the rows flagged
    by the current labels are the agreements plus the current-only rows, the
    rows flagged by the new rules are the agreements plus the new-only rows,
    and the three classes together never exceed the number of rows. *)
Theorem confusion_counts (results : list Row) :
  current_has_crime (confusion results)
  = both_crime (confusion results) + current_only (confusion results)
  /\ new_has_crime (confusion results)
     = both_crime (confusion results) + new_only (confusion results)
  /\ both_crime (confusion results) + current_only (confusion results)
     + new_only (confusion results) <= List.length results.
Proof.
  apply (fold_consistent results (mkConfusion 0 0 0 0 0) 0).
  unfold consistent. cbn. lia.
Qed.

Lemma relevance_label (title body : string) :
  In (relevance (classify_article title body)) RELEVANCE_LABELS.
Proof.
  open_classify. unfold RELEVANCE_LABELS.
  destruct (excluded title); [cbn [In relevance]; tauto|].
  destruct (match_any title PERIPHERAL_SPECIFIC_PATTERNS); [cbn [In relevance]; tauto|].
  destruct (match_any title POLICY_PATTERNS && negb (re_search HARD_INCIDENT title));
    [cbn [In relevance]; tauto|].
  unfold peripheral_chain.
  destruct (match_any title IMPAIRED_DRIVING_PATTERNS);
    [destruct (re_search COLLISION_CUE title); cbn [In relevance]; tauto|].
  destruct (match_any title INTERNATIONAL_INDICATORS
            && nonempty (fst (core_patterns title)));
    [|destruct (match_any title POLICY_PATTERNS);
      [|destruct (nonempty (fst (core_patterns title)))]];
    try destruct (core_patterns title); cbn [In relevance]; tauto.
Qed.

Lemma fold_current_only (results : list Row) : forall c,
  Forall (fun r => In (new_relevance r) RELEVANCE_LABELS) results ->
  current_only (fold_left confusion_step results c)
  = current_only c + List.length (fp_fixed results)
  /\ List.length (fn_fixed results) + new_only c
     <= new_only (fold_left confusion_step results c).
Proof.
  induction results as [|r l IH]; intros c H; cbn [fold_left].
  - cbn. lia.
  - inversion H as [|? ? Hr Hl]; subst.
    destruct (IH (confusion_step c r) Hl) as [E1 E2].
    rewrite E1. unfold fp_fixed, fn_fixed in *. cbn [filter].
    unfold confusion_step in *. cbv zeta in *.
    cbn [current_only new_only] in *.
    unfold has_new_crime, mem in *.
    destruct Hr as [Hr | [Hr | [Hr | []]]]; rewrite <- Hr in *;
      destruct (has_current_crime r);
      cbn [existsb String.eqb Ascii.eqb Bool.eqb orb andb negb bump List.length] in *;
      lia.
Qed.

(** X18.  On the rows [main] builds with [classify_article], the list of
    false positives fixed has exactly as many rows as the current-only
    counter, and the list of false negatives fixed at most as many as the
    new-only counter. *)
Theorem corrections_match_counters (articles : list Article) :
  List.length (fp_fixed (map classify_row articles))
  = current_only (confusion (map classify_row articles))
  /\ List.length (fn_fixed (map classify_row articles))
     <= new_only (confusion (map classify_row articles)).
Proof.
  assert (H : Forall (fun r => In (new_relevance r) RELEVANCE_LABELS)
                (map classify_row articles)).
  { apply Forall_forall. intros r Hr. apply in_map_iff in Hr.
    destruct Hr as (a & E & _). subst r. unfold classify_row. cbv zeta.
    cbn [new_relevance]. apply relevance_label. }
  destruct (fold_current_only _ (mkConfusion 0 0 0 0 0) H) as [E1 E2].
  unfold confusion. rewrite E1. cbn [current_only new_only] in *. lia.
Qed.

(** * Two more facts on the branches *)

(** X19.  After the exclusions, a title with impaired-driving wording is
    never dismissed: it is labelled core or peripheral, with a confidence of
    at least 0.50. *)
Theorem impaired_never_dismissed (title body : string) :
  excluded title = false ->
  match_any title IMPAIRED_DRIVING_PATTERNS = true ->
  relevance (classify_article title body) <> "not_crime"
  /\ (0.50 <= confidence (classify_article title body))%Q.
Proof.
  intros Hex Himp. open_classify. rewrite Hex.
  destruct (match_any title PERIPHERAL_SPECIFIC_PATTERNS);
    [split; discriminate|].
  destruct (match_any title POLICY_PATTERNS && negb (re_search HARD_INCIDENT title));
    [split; discriminate|].
  unfold peripheral_chain. rewrite Himp.
  destruct (re_search COLLISION_CUE title); fields; split; try discriminate.
  eapply Qle_trans; [|apply Q.le_max_r]. discriminate.
Qed.

Lemma impaired_never_dismissed_witness :
  relevance (classify_article "Drunk driving suspect stopped on highway" "")
  <> "not_crime"
  /\ (0.50 <= confidence
                (classify_article "Drunk driving suspect stopped on highway" ""))%Q.
Proof.
  apply (impaired_never_dismissed "Drunk driving suspect stopped on highway" "");
    vm_compute; reflexivity.
Defined.

(** X20.  Step 2 lists each crime type at most once and in the order of the
    tables: violent, property, drug, gang, organized, then "other_crime" and
    "criminal_justice". *)
Theorem step2_order (title : string) :
  NoDup (fst (core_patterns title))
  /\ fst (core_patterns title)
     = filter (fun name => mem name (fst (core_patterns title))) CRIME_TYPE_NAMES.
Proof.
  split; [apply core_patterns_nodup|].
  rewrite core_patterns_eq.
  destruct (tag_justice_types title (substantive title)) as (ext & E & Hext).
  rewrite E, substantive_types. unfold GROUPS. cbn [filter map fst snd].
  destruct (fst (match_patterns title VIOLENT_CRIME_PATTERNS));
  destruct (fst (match_patterns title PROPERTY_CRIME_PATTERNS));
  destruct (fst (match_patterns title DRUG_CRIME_PATTERNS));
  destruct (fst (match_patterns title GANG_PATTERNS));
  destruct (fst (match_patterns title ORGANIZED_CRIME_PATTERNS));
  destruct Hext as [X | [X | X]]; subst ext; reflexivity.
Qed.
